(** * Container discovery of nri-flex: a shallow embedding

    This development embeds [internal/discovery/discovery.go] and proves
    properties of its annotation parser, target matcher, coordinate
    resolver, configuration synthesizer and self identifier.

    Conventions of the embedding.
    - A Go [string] is a Rocq [string] (a sequence of bytes).
    - A Go map that the code only indexes ([discoveryConfigs] and the
      custom attributes) is a [gmap]; a Go map that the code ranges over
      (labels, networks, exposed ports, [discoveryLoop]) is an association
      list whose order is the order in which that [range] statement visits
      the entries.
    - A Go panic is the outcome [Panic] of the [result] type; an unrecovered
      panic of a goroutine ends the process, so [Panic] propagates through
      every caller.
    - Calls of [logger.Flex] and [log.Debug] have no effect on the values
      computed here and are left out.
    - The goroutines started by one fan-out run their bodies one after the
      other in the order of the container slice; interleavings inside a
      body and data races on the shared slices are outside the embedding. *)

From Stdlib Require Import String Ascii List ZArith Lia Bool.
From stdpp Require Import base strings gmap list pretty.

Import ListNotations.
Local Open Scope string_scope.
Local Open Scope list_scope.

(** ** Outcomes: a value or a panic *)

Inductive result (A : Type) : Type :=
| Ok (a : A)
| Panic.

Arguments Ok {A} a.
Arguments Panic {A}.

#[global] Instance result_ret : MRet result := fun A a => Ok a.

#[global] Instance result_bind : MBind result := fun A B k r =>
  match r with
  | Ok a => k a
  | Panic => Panic
  end.

(** ** The functions of Go's [strings] package that the file calls *)

Module GoStrings.

(** [strings.HasPrefix s prefix]. *)
Definition HasPrefix (s prefix : string) : bool := String.prefix prefix s.

(** [strings.Contains s substr]. *)
Fixpoint Contains (s substr : string) : bool :=
  match s with
  | EmptyString => HasPrefix s substr
  | String _ s' => HasPrefix s substr || Contains s' substr
  end.

(** [strings.TrimPrefix s prefix]. *)
Definition TrimPrefix (s prefix : string) : string :=
  if HasPrefix s prefix
  then String.substring (String.length prefix)
                        (String.length s - String.length prefix) s
  else s.

(** [strings.Split s sep] for a separator of one byte, which is what every
    call of the file passes. *)
Fixpoint Split (s : string) (sep : ascii) : list string :=
  match s with
  | EmptyString => [EmptyString]
  | String c s' =>
      if Ascii.eqb c sep then EmptyString :: Split s' sep
      else match Split s' sep with
           | h :: t => String c h :: t
           | [] => [String c EmptyString]
           end
  end.

(** [strings.SplitN s sep 2] for a separator of one byte: the text before
    the first separator and the text after it, or [s] alone. *)
Fixpoint SplitN2 (s : string) (sep : ascii) : list string :=
  match s with
  | EmptyString => [EmptyString]
  | String c s' =>
      if Ascii.eqb c sep then [EmptyString; s']
      else match SplitN2 s' sep with
           | [h; t] => [String c h; t]
           | _ => [s]
           end
  end.

(** [strings.Replace s old new (-1)] for a non-empty [old]: every
    non-overlapping occurrence of [old], from the left, becomes [new].
    [skip] counts the bytes of a matched occurrence still to be dropped. *)
Fixpoint ReplaceFrom (skip : nat) (s old new : string) : string :=
  match s with
  | EmptyString => EmptyString
  | String c s' =>
      match skip with
      | S k => ReplaceFrom k s' old new
      | O =>
          if HasPrefix s old
          then new +:+ ReplaceFrom (String.length old - 1) s' old new
          else String c (ReplaceFrom 0 s' old new)
      end
  end.

Definition Replace (s old new : string) : string := ReplaceFrom 0 s old new.

End GoStrings.

Import GoStrings.

(** ** Data of the Docker API and of package [load] that the file reads *)

(** [types.Port]: the fields read by the resolver. *)
Record Port : Type := {
  IP : string;
  PrivatePort : N;
  PublicPort : N
}.

(** [types.Container], a Container Snapshot. [Networks] stands for
    [NetworkSettings.Networks] and keeps, for each network, the [IPAddress]
    of its endpoint; the pointers [NetworkSettings] and the endpoint
    settings are filled by the runtime client and are taken as their
    pointees. *)
Record Container : Type := {
  ID : string;
  Names : list string;
  Image : string;
  Labels : list (string * string);
  Ports : list Port;
  Networks : list (string * string)
}.

(** [container.Config]: labels, environment and the exposed-port set (the
    keys of [nat.PortSet]). *)
Record ContainerConfig : Type := {
  Config_Labels : list (string * string);
  Env : list string;
  ExposedPorts : list string
}.

(** [types.ContainerJSON], a Container Inspection. [Config] is a pointer the
    code compares with [nil]. *)
Record ContainerJSON : Type := {
  JSON_ID : string;
  State_Pid : Z;
  Config : option ContainerConfig
}.

(** The zero value [types.ContainerJSON{}]. *)
Definition zeroContainerJSON : ContainerJSON :=
  {| JSON_ID := ""; State_Pid := 0; Config := None |}.

(** [load.Config]: the two fields this file reads or writes; the others are
    carried through unchanged and are left out. *)
Record load_Config : Type := {
  FileName : string;
  CustomAttributes : option (gmap string string)
}.

(** A value decoded by [json.Unmarshal] into [interface{}]. A number keeps
    its literal. *)
#[warnings="-register-all"]
Inductive jvalue : Type :=
| JNull
| JBool (b : bool)
| JNumber (literal : string)
| JString (s : string)
| JArray (items : list jvalue)
| JObject (fields : list (string * jvalue)).

(** [*client.Client]: the two calls made on it. [None] is a returned error. *)
Record Client : Type := {
  ContainerList : option (list Container);
  ContainerInspect : string -> option ContainerJSON
}.

(** Everything the file takes from outside: the constants and arguments of
    package [load], and the collaborators it calls. [None] is a returned
    error. *)
Record World : Type := {
  load_Public : string;
  load_Private : string;
  load_DefaultIPMode : string;
  load_Img : string;
  load_IntegrationName : string;
  load_IntegrationNameShort : string;
  load_Args_OverrideIPMode : string;
  (** [formatter.KvFinder matchType k v] *)
  formatter_KvFinder : string -> string -> string -> bool;
  (** [ioutil.ReadFile] *)
  ioutil_ReadFile : string -> option string;
  (** [processor.ReadYML] *)
  processor_ReadYML : string -> option load_Config;
  (** what [processor.LoadConfigFiles] stores into [containerYmls] *)
  processor_LoadConfigFiles : list load_Config;
  (** the outcome of [setDockerClient], which only runs external commands *)
  setDockerClient : option Client;
  (** [json.Unmarshal] into a [[]interface{}] *)
  json_Unmarshal : string -> option (list jvalue);
  (** [fmt.Sprintf "%v"] of a decoded value *)
  fmt_Sprintf_v : jvalue -> string;
  (** [nat.Port.Port] *)
  nat_Port_Port : string -> string;
  (** the combined output of the [fib_trie] pipeline for a process id, when
      the command ends without error before the timeout *)
  exec_fib_trie : Z -> option string;
  (** [execContainerCommand], declared in another file of the package *)
  execContainerCommand : string -> list string -> option string;
  (** [strings.TrimSpace] *)
  strings_TrimSpace : string -> string;
  (** [re.Match] for the IPv4 pattern of the file *)
  regexp_ipv4_Match : string -> bool
}.

(** [map[string]map[string]interface{}]. Every value the file stores in an
    inner map is a string; an absent entry reads as [nil]. *)
Abbreviation DiscoveryConfigs := (gmap string (gmap string string)).

(** [discoveryConfigs[key][field]]; indexing an absent (nil) inner map
    gives [nil] as well. *)
Definition dcGet (dc : DiscoveryConfigs) (key field : string) : option string :=
  match dc !! key with
  | Some m => m !! field
  | None => None
  end.

(** [discoveryConfigs[key][field] = v]; assigning into a nil inner map
    panics. *)
Definition dcSet (dc : DiscoveryConfigs) (key field v : string) : result DiscoveryConfigs :=
  match dc !! key with
  | Some m => Ok (<[key := <[field := v]> m]> dc)
  | None => Panic
  end.

(** The type assertion [x.(string)]: it panics on [nil]. *)
Definition assertString (x : option string) : result string :=
  match x with
  | Some s => Ok s
  | None => Panic
  end.

(** [m[k] = v] on a map that is ranged over later. *)
Fixpoint mapSet (k v : string) (m : list (string * string)) : list (string * string) :=
  match m with
  | [] => [(k, v)]
  | (k', v') :: rest =>
      if String.eqb k' k then (k, v) :: rest else (k', v') :: mapSet k v rest
  end.

(** ** parseFlexDiscoveryLabel *)

(** The body shared by the two loops of [parseFlexDiscoveryLabel]: each
    segment is split on [inner] and stored when it has exactly two parts. *)
Fixpoint storePairs (dc : DiscoveryConfigs) (key : string) (inner : ascii)
    (labelValues : list string) : result DiscoveryConfigs :=
  match labelValues with
  | [] => Ok dc
  | value :: rest =>
      match Split value inner with
      | [k; v] => dc' ← dcSet dc key k v; storePairs dc' key inner rest
      | _ => storePairs dc key inner rest
      end
  end.

Definition parseFlexDiscoveryLabel (dc : DiscoveryConfigs) (key val : string)
    : result DiscoveryConfigs :=
  if Contains val "="
  then storePairs dc key "=" (Split val ",")
  else if Contains val "."
  then storePairs dc key "_" (Split val ".")
  else Ok dc.

(** ** findContainerTarget *)

Section Discovery.

Variable W : World.

(** The append of the container id followed by [return true]. *)
Definition claim (container : Container) (ids : list string) : bool * list string :=
  (true, ids ++ [ID container]).

(** The inner loop over [container.Labels]; its loop variable [key] shadows
    the parameter [key], so the directive is read at the label's key.
    [true] means that the loop returned [true] from the function. *)
Fixpoint labelFallback (dc : DiscoveryConfigs) (labels : list (string * string))
    : result bool :=
  match labels with
  | [] => Ok false
  | (key, val) :: rest =>
      if String.eqb key "io.kubernetes.container.name"
      then
        tm ← assertString (dcGet dc key "tm");
        t ← assertString (dcGet dc key "t");
        if formatter_KvFinder W tm val t then Ok true
        else labelFallback dc rest
      else labelFallback dc rest
  end.

(** The loop over [container.Names] of the ["cname"] case. *)
Fixpoint namesLoop (dc : DiscoveryConfigs) (container : Container) (key : string)
    (ids : list string) (names : list string) : result (bool * list string) :=
  match names with
  | [] => Ok (false, ids)
  | containerName :: rest =>
      let checkContainerName := TrimPrefix containerName "/" in
      tm ← assertString (dcGet dc key "tm");
      t ← assertString (dcGet dc key "t");
      if formatter_KvFinder W tm checkContainerName t
      then Ok (claim container ids)
      else
        hit ← labelFallback dc (Labels container);
        if hit : bool then Ok (claim container ids)
        else namesLoop dc container key ids rest
  end.

Definition findContainerTarget (dc : DiscoveryConfigs) (container : Container)
    (key : string) (foundTargetContainerIds : list string)
    : result (bool * list string) :=
  if existsb (fun id => String.eqb id (ID container)) foundTargetContainerIds
  then Ok (false, foundTargetContainerIds)
  else
    match dcGet dc key "tt" with
    | Some targetType =>
        if String.eqb targetType "cname"
        then namesLoop dc container key foundTargetContainerIds (Names container)
        else if String.eqb targetType (load_Img W)
        then
          tm ← assertString (dcGet dc key "tm");
          t ← assertString (dcGet dc key "t");
          if formatter_KvFinder W tm (Image container) t
          then Ok (claim container foundTargetContainerIds)
          else Ok (false, foundTargetContainerIds)
        else Ok (false, foundTargetContainerIds)
    | None => Ok (false, foundTargetContainerIds)
    end.

(** ** lowLevelIpv4Fetch and execHostnameFallback *)

(** The new value of [*discoveryIPAddress]. *)
Definition lowLevelIpv4Fetch (discoveryIPAddress : string) (pid : Z) : string :=
  if String.eqb discoveryIPAddress ""
  then
    match exec_fib_trie W pid with
    | Some output =>
        let ipv4 := strings_TrimSpace W output in
        if regexp_ipv4_Match W ipv4 then ipv4 else discoveryIPAddress
    | None => discoveryIPAddress
    end
  else discoveryIPAddress.

(** The new value of [*discoveryIPAddress]. *)
Definition execHostnameFallback (discoveryIPAddress containerID : string) : string :=
  if String.eqb discoveryIPAddress ""
  then
    match execContainerCommand W containerID ["hostname"; "-i"] with
    | Some ip =>
        let ipv4 := strings_TrimSpace W ip in
        if negb (String.eqb ip "") && regexp_ipv4_Match W ipv4
           && negb (Contains ip "exec failed")
        then ipv4 else discoveryIPAddress
    | None => discoveryIPAddress
    end
  else discoveryIPAddress.

(** ** addDynamicConfig *)

(** The type switch on [discoveryConfigs[key]["c"]]. *)
Definition configNameOf (dc : DiscoveryConfigs) (key : string) : string :=
  match dcGet dc key "c" with
  | Some cfg => cfg +:+ ".yml"
  | None => ""
  end.

(** The value of [ipMode] before the [switch]. *)
Definition effectiveIPMode (dc : DiscoveryConfigs) (key : string) : string :=
  let override := load_Args_OverrideIPMode W in
  if negb (String.eqb override "")
     && (String.eqb override (load_Public W) || String.eqb override (load_Private W))
  then override
  else
    match dcGet dc key "ip" with
    | Some ip =>
        if String.eqb ip (load_Private W) || String.eqb ip (load_Public W)
        then ip else load_DefaultIPMode W
    | None => load_DefaultIPMode W
    end.

(** From the declaration of [discoveryIPAddress] to the end of the
    [switch ipMode]: the pair [(discoveryIPAddress, discoveryPort)]. *)
Definition selectCoordinates (dc : DiscoveryConfigs) (key : string)
    (targetContainer : Container) : string * string :=
  let networkIPAddress :=
    match Networks targetContainer with
    | (_, ipAddress) :: _ => ipAddress
    | [] => ""
    end in
  let '(discoveryPort, publicIPAddress, publicPort, privatePort) :=
    match dcGet dc key "p" with
    | Some p => (p, "", "", "")
    | None =>
        match Ports targetContainer with
        | port :: _ =>
            ("", IP port, pretty (PublicPort port), pretty (PrivatePort port))
        | [] => ("", "", "", "")
        end
    end in
  let ipMode := effectiveIPMode dc key in
  if String.eqb ipMode (load_Public W) then (publicIPAddress, publicPort)
  else if String.eqb ipMode (load_Private W) then (networkIPAddress, privatePort)
  else ("", discoveryPort).

(** The substitution of the address: [ymlString] after it. *)
Definition substituteIP (ymlString discoveryIPAddress : string) : string :=
  if negb (String.eqb discoveryIPAddress "")
  then Replace (Replace ymlString "${auto:host}" discoveryIPAddress)
               "${auto:ip}" discoveryIPAddress
  else ymlString.

(** [x[field]] on a decoded object; a JSON [null] reads as [nil]. *)
Fixpoint objectField (fields : list (string * jvalue)) (field : string) : option jvalue :=
  match fields with
  | [] => None
  | (k, v) :: rest =>
      if String.eqb k field
      then match v with JNull => None | _ => Some v end
      else objectField rest field
  end.

(** The loop over the decoded array [x] of the Kubernetes port fallback, on
    the pair [(ymlString, discoveryPort)]. The assertion
    [kubePort.(map[string]interface{})] panics on an element that is not an
    object. *)
Fixpoint kubePortsLoop (x : list jvalue) (st : string * string) : result (string * string) :=
  match x with
  | [] => Ok st
  | JObject fields :: rest =>
      match objectField fields "containerPort" with
      | Some v =>
          let discoveryPort := fmt_Sprintf_v W v in
          Ok (Replace st.1 "${auto:port}" discoveryPort, discoveryPort)
      | None => kubePortsLoop rest st
      end
  | _ :: _ => Panic
  end.

(** The loop over [targetContainer.Labels] of the Kubernetes port fallback. *)
Fixpoint kubeLabelsLoop (labels : list (string * string)) (st : string * string)
    : result (string * string) :=
  match labels with
  | [] => Ok st
  | (key, val) :: rest =>
      if String.eqb key "annotation.io.kubernetes.container.ports"
      then
        match json_Unmarshal W val with
        | Some x => st' ← kubePortsLoop x st; kubeLabelsLoop rest st'
        | None => kubeLabelsLoop rest st
        end
      else kubeLabelsLoop rest st
  end.

(** The secondary inspect fallback. *)
Definition exposedPortFallback (targetContainerInspect : ContainerJSON)
    (st : string * string) : string * string :=
  if String.eqb st.2 ""
  then
    match Config targetContainerInspect with
    | Some config =>
        match ExposedPorts config with
        | port :: _ =>
            let discoveryPort := hd "" (Split (nat_Port_Port W port) "/") in
            (Replace st.1 "${auto:port}" discoveryPort, discoveryPort)
        | [] => st
        end
    | None => st
    end
  else st.

(** The substitution of the port with its fallbacks: the pair
    [(ymlString, discoveryPort)] after it. *)
Definition substitutePort (targetContainer : Container)
    (targetContainerInspect : ContainerJSON) (ymlString discoveryPort : string)
    : result (string * string) :=
  if negb (String.eqb discoveryPort "")
  then Ok (Replace ymlString "${auto:port}" discoveryPort, discoveryPort)
  else
    st ← kubeLabelsLoop (Labels targetContainer) (ymlString, discoveryPort);
    Ok (exposedPortFallback targetContainerInspect st).

(** The text handed to the placeholder test, with the resolved address and
    port, for the template text [ymlString]. *)
Definition substitute (dc : DiscoveryConfigs) (key : string)
    (targetContainer : Container) (targetContainerInspect : ContainerJSON)
    (ymlString : string) : result (string * string * string) :=
  let '(ip0, port0) := selectCoordinates dc key targetContainer in
  let ip1 := lowLevelIpv4Fetch ip0 (State_Pid targetContainerInspect) in
  let discoveryIPAddress := execHostnameFallback ip1 (ID targetContainer) in
  let yml1 := substituteIP ymlString discoveryIPAddress in
  '(yml2, discoveryPort) ← substitutePort targetContainer targetContainerInspect yml1 port0;
  Ok (yml2, discoveryIPAddress, discoveryPort).

(** The test that guards the emission. *)
Definition hasPlaceholder (ymlString : string) : bool :=
  Contains ymlString "${auto:host}" || Contains ymlString "${auto:ip}"
  || Contains ymlString "${auto:port}".

(** The loop copying the container's labels into the custom attributes. *)
Definition copyLabels (labels : list (string * string)) (attrs : gmap string string)
    : gmap string string :=
  fold_left (fun m kv => <[kv.1 := kv.2]> m) labels attrs.

(** The decoration of a parsed configuration. The slice expression
    [targetContainer.ID[0:12]] panics when the id has fewer than 12 bytes. *)
Definition decorate (yml : load_Config) (targetContainer : Container) : result load_Config :=
  let attrs0 := match CustomAttributes yml with Some m => m | None => ∅ end in
  let attrs1 := copyLabels (Labels targetContainer) attrs0 in
  let attrs2 := <["containerID" := ID targetContainer]> attrs1 in
  let attrs3 := <["image" := Image targetContainer]> attrs2 in
  if (String.length (ID targetContainer) <? 12)%nat then Panic
  else
    Ok {| FileName := FileName yml;
          CustomAttributes :=
            Some (<["IDShort" := String.substring 0 12 (ID targetContainer)]> attrs3) |}.

(** The placeholder test and what follows it: the new value of [*ymls]. *)
Definition emit (ymls : list load_Config) (targetContainer : Container)
    (ymlString : string) : result (list load_Config) :=
  if hasPlaceholder ymlString then Ok ymls
  else
    match processor_ReadYML W ymlString with
    | None => Ok ymls
    | Some yml => yml' ← decorate yml targetContainer; Ok (ymls ++ [yml'])
    end.

(** The body of the loop over [*containerYmls]. *)
Definition addDynamicConfigFor (containerYml : load_Config) (dc : DiscoveryConfigs)
    (ymls : list load_Config) (targetContainer : Container)
    (targetContainerInspect : ContainerJSON) (key path : string)
    : result (list load_Config) :=
  if String.eqb (FileName containerYml) (configNameOf dc key)
  then
    match ioutil_ReadFile W (path +:+ FileName containerYml) with
    | None => Ok ymls
    | Some ymlString =>
        '(text, _, _) ← substitute dc key targetContainer targetContainerInspect ymlString;
        emit ymls targetContainer text
    end
  else Ok ymls.

Fixpoint addDynamicConfig (containerYmls : list load_Config) (dc : DiscoveryConfigs)
    (ymls : list load_Config) (targetContainer : Container)
    (targetContainerInspect : ContainerJSON) (key path : string)
    : result (list load_Config) :=
  match containerYmls with
  | [] => Ok ymls
  | containerYml :: rest =>
      ymls' ← addDynamicConfigFor containerYml dc ymls targetContainer
                targetContainerInspect key path;
      addDynamicConfig rest dc ymls' targetContainer targetContainerInspect key path
  end.

(** ** findFlexContainerID *)

(** The body of one goroutine, on the value of [load.ContainerID]. *)
Definition flexContainerStep (containerID : string) (container : Container) : string :=
  let id1 :=
    if Contains (Image container) (load_IntegrationName W) && String.eqb containerID ""
    then ID container else containerID in
  let id2 :=
    if String.eqb id1 ""
    then fold_left
           (fun id containerName =>
              let checkContainerName := TrimPrefix containerName "/" in
              if Contains checkContainerName (load_IntegrationNameShort W)
              then ID container else id)
           (Names container) id1
    else id1 in
  if String.eqb id2 ""
  then fold_left
         (fun id kv =>
            if String.eqb kv.1 "io.kubernetes.container.name"
            then if Contains kv.2 (load_IntegrationNameShort W)
                 then ID container else id
            else id)
         (Labels container) id2
  else id2.

(** The new value of [load.ContainerID]. *)
Definition findFlexContainerID (containerID : string) (containers : list Container) : string :=
  if String.eqb containerID ""
  then fold_left flexContainerStep containers containerID
  else containerID.

(** ** The two lookups *)

(** The variables one discovery pass shares between its steps.
    [inspectCalls] is not a variable of the program: it lists, in order, the
    ids passed to [dockerClient.ContainerInspect]. *)
Record Pass : Type := {
  discoveryConfigs : DiscoveryConfigs;
  inspectedContainers : list ContainerJSON;
  foundTargetContainerIds : list string;
  ymls : list load_Config;
  inspectCalls : list string
}.

Definition setConfigs (dc : DiscoveryConfigs) (st : Pass) : Pass :=
  {| discoveryConfigs := dc;
     inspectedContainers := inspectedContainers st;
     foundTargetContainerIds := foundTargetContainerIds st;
     ymls := ymls st;
     inspectCalls := inspectCalls st |}.

Definition addInspected (c : ContainerJSON) (st : Pass) : Pass :=
  {| discoveryConfigs := discoveryConfigs st;
     inspectedContainers := inspectedContainers st ++ [c];
     foundTargetContainerIds := foundTargetContainerIds st;
     ymls := ymls st;
     inspectCalls := inspectCalls st |}.

Definition setFound (ids : list string) (st : Pass) : Pass :=
  {| discoveryConfigs := discoveryConfigs st;
     inspectedContainers := inspectedContainers st;
     foundTargetContainerIds := ids;
     ymls := ymls st;
     inspectCalls := inspectCalls st |}.

Definition setYmls (l : list load_Config) (st : Pass) : Pass :=
  {| discoveryConfigs := discoveryConfigs st;
     inspectedContainers := inspectedContainers st;
     foundTargetContainerIds := foundTargetContainerIds st;
     ymls := l;
     inspectCalls := inspectCalls st |}.

(** A call of [dockerClient.ContainerInspect]: the call is recorded and its
    outcome returned. *)
Definition inspect (cli : Client) (id : string) (st : Pass) : option ContainerJSON * Pass :=
  (ContainerInspect cli id,
   {| discoveryConfigs := discoveryConfigs st;
      inspectedContainers := inspectedContainers st;
      foundTargetContainerIds := foundTargetContainerIds st;
      ymls := ymls st;
      inspectCalls := inspectCalls st ++ [id] |}).

(** [if discoveryConfigs[key][field] == nil { discoveryConfigs[key][field] = v }] *)
Definition setDefault (dc : DiscoveryConfigs) (key field v : string) : result DiscoveryConfigs :=
  match dcGet dc key field with
  | None => dcSet dc key field v
  | Some _ => Ok dc
  end.

(** The loop adding the [KEY=VALUE] environment entries to [discoveryLoop]. *)
Definition addEnv (env : list string) (discoveryLoop : list (string * string))
    : list (string * string) :=
  fold_left
    (fun m envVar =>
       match SplitN2 envVar "=" with
       | [k; v] => mapSet k v m
       | _ => m
       end)
    env discoveryLoop.

(** The loop adding labels to [discoveryLoop]. *)
Definition addLabels (labels : list (string * string)) (discoveryLoop : list (string * string))
    : list (string * string) :=
  fold_left (fun m kv => mapSet kv.1 kv.2 m) labels discoveryLoop.

(** The body of the loop over [discoveryLoop] in [runReverseLookup]. *)
Definition reverseEntry (cli : Client) (containerYmls : list load_Config) (path : string)
    (container : Container) (st : Pass) (kv : string * string) : result Pass :=
  let '(key, val) := kv in
  if Contains key "flexDiscovery"
  then
    dc1 ← parseFlexDiscoveryLabel (<[key := ∅]> (discoveryConfigs st)) key val;
    dc2 ← match dcGet dc1 key "t" with
          | Some t =>
              dcC ← setDefault dc1 key "c" t;
              dcT ← setDefault dcC key "tt" (load_Img W);
              setDefault dcT key "tm" "contains"
          | None => Ok dc1
          end;
    let '(inspected, st1) := inspect cli (ID container) (setConfigs dc2 st) in
    match inspected with
    | None => Ok st1
    | Some reverseContainerInspect =>
        '(matched, ids) ← findContainerTarget dc2 container key (foundTargetContainerIds st1);
        let st2 := setFound ids st1 in
        if matched : bool
        then
          let st3 := addInspected reverseContainerInspect st2 in
          ymls' ← addDynamicConfig containerYmls dc2 (ymls st3) container
                    reverseContainerInspect key path;
          Ok (setYmls ymls' st3)
        else Ok st2
    end
  else Ok st.

(** A loop whose body may panic. *)
Fixpoint forEach {A S : Type} (body : S -> A -> result S) (l : list A) (st : S) : result S :=
  match l with
  | [] => Ok st
  | a :: rest => st' ← body st a; forEach body rest st'
  end.

(** The body of one goroutine of [runReverseLookup]. *)
Definition reverseContainer (cli : Client) (containerYmls : list load_Config) (path : string)
    (containerID : string) (discoveryLoop : list (string * string))
    (st : Pass) (container : Container) : result Pass :=
  if negb (String.eqb (ID container) containerID)
  then forEach (reverseEntry cli containerYmls path container) discoveryLoop st
  else Ok st.

(** [runReverseLookup], with [load.ContainerID] as [containerID]; the
    [discoveryConfigs] map is local to the call. *)
Definition runReverseLookup (cli : Client) (containers : list Container)
    (containerYmls : list load_Config) (path : string) (containerID : string)
    (st : Pass) : result Pass :=
  let st0 := setConfigs ∅ st in
  let '(discoveryLoop, st1) :=
    if negb (String.eqb containerID "")
    then
      let '(inspected, st') := inspect cli containerID st0 in
      match inspected with
      | None => ([], st')
      | Some flexContainerInspect =>
          match Config flexContainerInspect with
          | Some config =>
              (addEnv (Env config) (addLabels (Config_Labels config) []),
               addInspected flexContainerInspect st')
          | None => ([], st')
          end
      end
    else ([], st0) in
  if (0 <? length discoveryLoop)%nat
  then forEach (reverseContainer cli containerYmls path containerID discoveryLoop)
               containers st1
  else Ok st1.

(** The body of the loop over [discoveryLoop] in [runForwardLookup]. *)
Definition forwardEntry (containerYmls : list load_Config) (path : string)
    (container : Container) (containerInspect : ContainerJSON)
    (st : Pass) (kv : string * string) : result Pass :=
  let '(key, val) := kv in
  if Contains key "flexDiscovery"
  then
    dc1 ← parseFlexDiscoveryLabel (<[key := ∅]> (discoveryConfigs st)) key val;
    match dcGet dc1 key "t" with
    | Some t =>
        dcC ← setDefault dc1 key "c" t;
        dcR ← setDefault dcC key "r" "false";
        dcT ← setDefault dcR key "tt" (load_Img W);
        dc2 ← setDefault dcT key "tm" "contains";
        ymls' ← addDynamicConfig containerYmls dc2 (ymls st) container
                  containerInspect key path;
        Ok (setYmls ymls' (setConfigs dc2 st))
    | None => Ok (setConfigs dc1 st)
    end
  else Ok st.

(** The search of the inspection cache; the zero value when the container
    is not in it. *)
Fixpoint cachedInspect (inspected : list ContainerJSON) (id : string) : ContainerJSON :=
  match inspected with
  | [] => zeroContainerJSON
  | inspectedContainer :: rest =>
      if String.eqb (JSON_ID inspectedContainer) id then inspectedContainer
      else cachedInspect rest id
  end.

(** The body of one goroutine of [runForwardLookup]. *)
Definition forwardContainer (cli : Client) (containerYmls : list load_Config) (path : string)
    (containerID : string) (st : Pass) (container : Container) : result Pass :=
  let targeted :=
    existsb (fun id => String.eqb id (ID container)) (foundTargetContainerIds st) in
  if negb (String.eqb containerID (ID container)) && negb targeted
  then
    let discoveryLoop0 := addLabels (Labels container) [] in
    let cached := cachedInspect (inspectedContainers st) (ID container) in
    let '(containerInspect, st1) :=
      match Config cached with
      | None =>
          let '(inspected, st') := inspect cli (ID container) st in
          match inspected with
          | None => (zeroContainerJSON, st')
          | Some fresh => (fresh, addInspected fresh st')
          end
      | Some _ => (cached, st)
      end in
    match Config containerInspect with
    | Some config =>
        let discoveryLoop :=
          addEnv (Env config) (addLabels (Config_Labels config) discoveryLoop0) in
        forEach (forwardEntry containerYmls path container containerInspect)
                discoveryLoop st1
    | None => Ok st1
    end
  else Ok st.

(** [runForwardLookup]; the [discoveryConfigs] map is local to the call. *)
Definition runForwardLookup (cli : Client) (containers : list Container)
    (containerYmls : list load_Config) (path : string) (containerID : string)
    (st : Pass) : result Pass :=
  forEach (forwardContainer cli containerYmls path containerID) containers (setConfigs ∅ st).

(** ** CreateDynamicContainerConfigs and Run *)

(** The pass starts with the caller's [*ymls], an empty Claim Set and no
    inspect call made. *)
Definition initialPass (ymls : list load_Config) : Pass :=
  {| discoveryConfigs := ∅;
     inspectedContainers := [];
     foundTargetContainerIds := [];
     ymls := ymls;
     inspectCalls := [] |}.

(** [CreateDynamicContainerConfigs]: the new value of [load.ContainerID] and
    the state of the pass, whose [ymls] is the new value of [*ymls]. *)
Definition CreateDynamicContainerConfigs (containers : list Container) (path : string)
    (ymls : list load_Config) (containerID : string) : result (string * Pass) :=
  let containerYmls := processor_LoadConfigFiles W in
  match setDockerClient W with
  | None => Ok (containerID, initialPass ymls)
  | Some cli =>
      let containerID' := findFlexContainerID containerID containers in
      st1 ← runReverseLookup cli containers containerYmls path containerID' (initialPass ymls);
      st2 ← runForwardLookup cli containers containerYmls path containerID' st1;
      Ok (containerID', st2)
  end.

(** [Run]: the new values of [*containerDiscoveryAvailable] and
    [*containers]. *)
Definition Run (containerDiscoveryAvailable : bool) (containers : list Container)
    : bool * list Container :=
  match setDockerClient W with
  | None => (containerDiscoveryAvailable, containers)
  | Some cli =>
      match ContainerList cli with
      | None => (containerDiscoveryAvailable, containers)
      | Some containerList =>
          if (0 <? length containerList)%nat then (true, containerList)
          else (containerDiscoveryAvailable, containers)
      end
  end.

End Discovery.

(** ** Vocabulary of the statements *)

(** The byte [c] occurs in [s]. *)
Fixpoint hasByte (c : ascii) (s : string) : bool :=
  match s with
  | EmptyString => false
  | String x s' => Ascii.eqb x c || hasByte c s'
  end.

(** A field name or value that contains none of the four separators of the
    two encodings. *)
Definition separatorFree (s : string) : Prop :=
  hasByte "=" s = false /\ hasByte "," s = false /\
  hasByte "." s = false /\ hasByte "_" s = false.

(** The pair-list encoding [field1=value1,field2=value2]. *)
Definition pairList (f1 v1 f2 v2 : string) : string :=
  f1 +:+ "=" +:+ v1 +:+ "," +:+ f2 +:+ "=" +:+ v2.

(** The dotted encoding [field1_value1.field2_value2]. *)
Definition dotted (f1 v1 f2 v2 : string) : string :=
  f1 +:+ "_" +:+ v1 +:+ "." +:+ f2 +:+ "_" +:+ v2.

(** The container satisfies one of the three steps of the Self-Identifier. *)
Definition flexCandidate (W : World) (container : Container) : bool :=
  Contains (Image container) (load_IntegrationName W)
  || existsb (fun containerName =>
                Contains (TrimPrefix containerName "/") (load_IntegrationNameShort W))
             (Names container)
  || existsb (fun kv =>
                String.eqb kv.1 "io.kubernetes.container.name"
                && Contains kv.2 (load_IntegrationNameShort W))
             (Labels container).

(** No Kubernetes ports label of the container supplies a port: its value
    does not decode, or decodes to objects without a [containerPort]. *)
Definition noKubePort (W : World) (labels : list (string * string)) : Prop :=
  forall val x,
    In ("annotation.io.kubernetes.container.ports", val) labels ->
    json_Unmarshal W val = Some x ->
    Forall (fun v => exists fields,
              v = JObject fields /\ objectField fields "containerPort" = None) x.

(** The inspection has no exposed port. *)
Definition noExposedPort (inspected : ContainerJSON) : Prop :=
  match Config inspected with
  | Some config => ExposedPorts config = []
  | None => True
  end.

(** The configuration [y] comes from a template of [containerYmls] whose
    text, after substitution, holds no placeholder and was parsed and
    decorated. *)
Definition emittedFrom (W : World) (containerYmls : list load_Config)
    (dc : DiscoveryConfigs) (targetContainer : Container)
    (targetContainerInspect : ContainerJSON) (key path : string) (y : load_Config) : Prop :=
  exists containerYml template text ip port yml,
    In containerYml containerYmls
    /\ ioutil_ReadFile W (path +:+ FileName containerYml) = Some template
    /\ substitute W dc key targetContainer targetContainerInspect template
       = Ok (text, ip, port)
    /\ Contains text "${auto:host}" = false
    /\ Contains text "${auto:ip}" = false
    /\ Contains text "${auto:port}" = false
    /\ processor_ReadYML W text = Some yml
    /\ decorate yml targetContainer = Ok y.

(** ** setDockerClient *)

Module DockerClient.

(** The options handed to [client.NewClientWithOpts]. *)
Inductive ClientOpts : Type :=
| NoOpts
| WithVersion (version : string).

(** What [setDockerClient] takes from outside. [exec_Output] is
    [exec.Command(name, args...).Output()]: the output and whether an error
    came back. [version_le a b] is the test [clientVer <= apiVer] on the two
    results of [strconv.ParseFloat], whose errors the code drops. *)
Record Env : Type := {
  load_Args_DockerAPIVersion : string;
  runtime_GOOS : string;
  api_DefaultVersion : string;
  exec_Output : list string -> string * bool;
  version_le : string -> string -> bool;
  strings_TrimSpace : string -> string;
  client_NewClientWithOpts : ClientOpts -> option Client
}.

(** The double quote. *)
Definition doubleQuote : string := String (ascii_of_nat 34) "".

(** The arguments [version --format "{{json .Client.APIVersion}}"]. *)
Definition versionArgs : list string :=
  ["version"; "--format"; doubleQuote +:+ "{{json .Client.APIVersion}}" +:+ doubleQuote].

(** The commands run, in order, and the options of the client that is
    built. [out] and [err] start as the zero values of their declarations
    ([err] is the flag of [err != nil]). *)
Definition setDockerClientRun (E : Env) : list (list string) * ClientOpts :=
  let out := "" in
  let err := false in
  if negb (String.eqb (load_Args_DockerAPIVersion E) "")
  then ([], WithVersion (load_Args_DockerAPIVersion E))
  else
    let '(commands, out, err) :=
      if err : bool
      then
        if String.eqb (runtime_GOOS E) "windows"
        then
          let command := ["cmd"; "/C"; "docker"] ++ versionArgs in
          let '(out, err) := exec_Output E command in ([command], out, err)
        else
          let command := "docker" :: versionArgs in
          let '(out, err) := exec_Output E command in
          if err : bool
          then
            let command' := "/host/usr/local/bin/docker" :: versionArgs in
            let '(out, err) := exec_Output E command' in ([command; command'], out, err)
          else ([command], out, err)
      else ([], out, err) in
    if err : bool
    then (commands, NoOpts)
    else
      let cmdOut := out in
      let clientAPIVersion := strings_TrimSpace E (Replace cmdOut doubleQuote "") in
      if version_le E clientAPIVersion (api_DefaultVersion E)
      then (commands, WithVersion clientAPIVersion)
      else (commands, NoOpts).

(** [setDockerClient]: the client, or [None] for an error. *)
Definition setDockerClient (E : Env) : option Client :=
  client_NewClientWithOpts E (setDockerClientRun E).2.

End DockerClient.

(** ** More vocabulary *)

(** The id of the first container that satisfies a step of the
    Self-Identifier and has a non-empty id; the empty string when there is
    none. *)
Fixpoint firstCandidateID (W : World) (containers : list Container) : string :=
  match containers with
  | [] => ""
  | container :: rest =>
      if flexCandidate W container && negb (String.eqb (ID container) "")
      then ID container
      else firstCandidateID W rest
  end.

(** No byte of [a] occurs in [b]. *)
Definition disjointBytes (a b : string) : Prop :=
  forall c, hasByte c a = true -> hasByte c b = false.

(** A resolved value that is not empty and shares no byte with the three
    placeholders, as a dotted IPv4 address and a decimal port do. *)
Definition placeholderFree (v : string) : Prop :=
  v <> "" /\ disjointBytes v "${auto:host}" /\ disjointBytes v "${auto:ip}"
  /\ disjointBytes v "${auto:port}".

(** The container carries no label [io.kubernetes.container.name]. *)
Definition noNameLabel (container : Container) : Prop :=
  forall val, ~ In ("io.kubernetes.container.name", val) (Labels container).

(** The forward lookup's view of two states of a pass: the Claim Set, the
    inspection cache and the inspect calls are the same, and the output
    collection has only grown at its end. *)
Definition onlyAppendsConfigs (st st' : Pass) : Prop :=
  foundTargetContainerIds st' = foundTargetContainerIds st
  /\ inspectedContainers st' = inspectedContainers st
  /\ inspectCalls st' = inspectCalls st
  /\ exists added, ymls st' = ymls st ++ added.

(** The pass has moved on: each of its four lists has only grown at its
    end. *)
Definition passGrows (st st' : Pass) : Prop :=
  (exists ids, foundTargetContainerIds st' = foundTargetContainerIds st ++ ids)
  /\ (exists l, inspectedContainers st' = inspectedContainers st ++ l)
  /\ (exists calls, inspectCalls st' = inspectCalls st ++ calls)
  /\ exists added, ymls st' = ymls st ++ added.

(** Between two states of a pass, the Claim Set has only grown at its end,
    by ids that satisfy [P], it has stayed without repetition if it was,
    and the output collection has only grown at its end. *)
Definition claimsOnly (P : string -> Prop) (st st' : Pass) : Prop :=
  (exists ids, foundTargetContainerIds st' = foundTargetContainerIds st ++ ids
               /\ Forall P ids)
  /\ (List.NoDup (foundTargetContainerIds st) -> List.NoDup (foundTargetContainerIds st'))
  /\ exists added, ymls st' = ymls st ++ added.

(** The annotation map the reverse lookup builds from the agent's own
    container: empty when the self id is unknown, when the inspection fails
    and when it has no config. *)
Definition agentAnnotations (cli : Client) (containerID : string) : list (string * string) :=
  if String.eqb containerID "" then []
  else
    match ContainerInspect cli containerID with
    | Some flexContainerInspect =>
        match Config flexContainerInspect with
        | Some config => addEnv (Env config) (addLabels (Config_Labels config) [])
        | None => []
        end
    | None => []
    end.

(** ** A sample world for the examples *)

(** Modelled from the spec: [formatter.KvFinder] is declared in package
    [formatter]; the sample implements the match mode [contains], substring
    containment, and no other mode. *)
Definition sampleKvFinder (matchType k v : string) : bool :=
  String.eqb matchType "contains" && Contains k v.

(** A parser that accepts every text and returns a configuration without
    custom attributes. *)
Definition sampleReadYML (text : string) : option load_Config :=
  Some {| FileName := ""; CustomAttributes := None |}.

(** Modelled from the spec: the constants of package [load] are declared
    outside this file; the sample takes the ip modes [public] and [private]
    with [private] as default, the image marker [img], and the integration
    names [com.newrelic.nri-flex] and [nri-flex]. The fallbacks that run
    external commands find nothing, and a port value renders as its text. *)
Definition sampleWorld (files : string -> option string) (templates : list load_Config)
    (cli : option Client) (unmarshal : string -> option (list jvalue)) : World :=
  {| load_Public := "public";
     load_Private := "private";
     load_DefaultIPMode := "private";
     load_Img := "img";
     load_IntegrationName := "com.newrelic.nri-flex";
     load_IntegrationNameShort := "nri-flex";
     load_Args_OverrideIPMode := "";
     formatter_KvFinder := sampleKvFinder;
     ioutil_ReadFile := files;
     processor_ReadYML := sampleReadYML;
     processor_LoadConfigFiles := templates;
     setDockerClient := cli;
     json_Unmarshal := unmarshal;
     fmt_Sprintf_v := fun v => match v with
                               | JString s => s
                               | JNumber literal => literal
                               | _ => "?"
                               end;
     nat_Port_Port := fun p => hd "" (Split p "/");
     exec_fib_trie := fun _ => None;
     execContainerCommand := fun _ _ => None;
     strings_TrimSpace := fun s => s;
     regexp_ipv4_Match := fun _ => false |}.

(** A world without files, templates, runtime client or JSON decoder. *)
Definition bareWorld : World :=
  sampleWorld (fun _ => None) [] None (fun _ => None).

(** A container running a Redis image, with a 64-character id. *)
Definition redisContainer : Container :=
  {| ID := "4f2a9c1d7e8b4f2a9c1d7e8b4f2a9c1d7e8b4f2a9c1d7e8b4f2a9c1d7e8b0011";
     Names := ["/cache-1"];
     Image := "redis:6.2";
     Labels := [];
     Ports := [];
     Networks := [("bridge", "172.17.0.5")] |}.

(** The directive [t=redis,tt=img,tm=contains] with its defaults, under the
    annotation key [flexDiscoveryRedis]. *)
Definition redisDirective : DiscoveryConfigs :=
  {[ "flexDiscoveryRedis" :=
       <["t" := "redis"]> (<["c" := "redis"]> (<["tt" := "img"]>
         (<["tm" := "contains"]> ∅))) ]}.

(** The Redis directive with the port override [p=8080] and [ip=private]. *)
Definition portDirective : DiscoveryConfigs :=
  {[ "flexDiscoveryRedis" :=
       <["ip" := "private"]> (<["p" := "8080"]> (<["t" := "redis"]> (<["c" := "redis"]>
         (<["tt" := "img"]> (<["tm" := "contains"]> ∅))))) ]}.

(** The same directive with [ip=public]. *)
Definition publicPortDirective : DiscoveryConfigs :=
  {[ "flexDiscoveryRedis" :=
       <["ip" := "public"]> (<["p" := "8080"]> (<["t" := "redis"]> (<["c" := "redis"]>
         (<["tt" := "img"]> (<["tm" := "contains"]> ∅))))) ]}.

(** The Redis container with one port mapping, 6379 published as 16379. *)
Definition mappedContainer : Container :=
  {| ID := ID redisContainer;
     Names := Names redisContainer;
     Image := Image redisContainer;
     Labels := [];
     Ports := [{| IP := "0.0.0.0"; PrivatePort := 6379; PublicPort := 16379 |}];
     Networks := Networks redisContainer |}.

(** The inspection of the Redis container: it exposes [6379/tcp]. *)
Definition redisInspect : ContainerJSON :=
  {| JSON_ID := ID redisContainer;
     State_Pid := 4242;
     Config := Some {| Config_Labels := []; Env := []; ExposedPorts := ["6379/tcp"] |} |}.

(** A Redis container run by Kubernetes: its runtime name does not hold the
    target, its orchestrator container-name label does. *)
Definition kubeContainer : Container :=
  {| ID := "9b1c3e5a7d9f9b1c3e5a7d9f9b1c3e5a7d9f9b1c3e5a7d9f9b1c3e5a7d9f0022";
     Names := ["/k8s_POD_default_7f9c"];
     Image := "registry.local/cache@sha256:77aa";
     Labels := [("io.kubernetes.container.name", "redis")];
     Ports := [];
     Networks := [("bridge", "10.1.0.7")] |}.

(** The directive [t=redis,tt=cname,tm=contains] with its defaults. *)
Definition cnameDirective : DiscoveryConfigs :=
  {[ "flexDiscoveryRedis" :=
       <["t" := "redis"]> (<["c" := "redis"]> (<["tt" := "cname"]>
         (<["tm" := "contains"]> ∅))) ]}.

(** A container whose id has three bytes. *)
Definition shortIdContainer : Container :=
  {| ID := "abc";
     Names := ["/cache-1"];
     Image := "redis:6.2";
     Labels := [];
     Ports := [];
     Networks := [("bridge", "172.17.0.5")] |}.


(** A container whose image holds the integration's full name. *)
Definition agentContainer : Container :=
  {| ID := "7c8d9e0f1a2b7c8d9e0f1a2b7c8d9e0f1a2b7c8d9e0f1a2b7c8d9e0f1a2b0044";
     Names := ["/agent"];
     Image := "example/com.newrelic.nri-flex:latest";
     Labels := [];
     Ports := [];
     Networks := [] |}.

(** The double quote. *)
Definition quote : string := String (ascii_of_nat 34) "".

(** The JSON text of an array with one object whose [containerPort] is the
    empty string. *)
Definition emptyPortJSON : string :=
  "[{" +:+ quote +:+ "containerPort" +:+ quote +:+ ":" +:+ quote +:+ quote +:+ "}]".

(** A decoder for that one text. *)
Definition emptyPortUnmarshal (val : string) : option (list jvalue) :=
  if String.eqb val emptyPortJSON
  then Some [JObject [("containerPort", JString "")]]
  else None.

(** The template [redis.yml] under [/etc/flex/], with both coordinates. *)
Definition redisTemplate : load_Config :=
  {| FileName := "redis.yml"; CustomAttributes := None |}.

Definition urlFiles (file : string) : option string :=
  if String.eqb file "/etc/flex/redis.yml"
  then Some "url: ${auto:host}:${auto:port}" else None.

(** The world of a host with that template and that decoder. *)
Definition emptyPortWorld : World :=
  sampleWorld urlFiles [redisTemplate] None emptyPortUnmarshal.



(** The inspection of the Redis container of the first sample, without
    exposed port. *)
Definition plainInspect : ContainerJSON :=
  {| JSON_ID := ID redisContainer;
     State_Pid := 4242;
     Config := Some {| Config_Labels := []; Env := []; ExposedPorts := [] |} |}.

(** The template [redis.yml] with the address only. *)
Definition hostFiles (file : string) : option string :=
  if String.eqb file "/etc/flex/redis.yml" then Some "host: ${auto:host}" else None.

(** The inspection of the agent's container with the given environment. *)
Definition agentInspect (env : list string) : ContainerJSON :=
  {| JSON_ID := ID agentContainer;
     State_Pid := 77;
     Config := Some {| Config_Labels := []; Env := env; ExposedPorts := [] |} |}.

(** The inspection of the Kubernetes Redis container. *)
Definition kubeInspect : ContainerJSON :=
  {| JSON_ID := ID kubeContainer;
     State_Pid := 901;
     Config := Some {| Config_Labels := []; Env := []; ExposedPorts := [] |} |}.

(** A runtime client that lists the given containers and inspects the
    agent's container (with the given environment), the Redis container and
    the Kubernetes Redis container. *)
Definition sampleClient (env : list string) (containers : list Container) : Client :=
  {| ContainerList := Some containers;
     ContainerInspect := fun id =>
       if String.eqb id (ID agentContainer) then Some (agentInspect env)
       else if String.eqb id (ID redisContainer) then Some redisInspect
       else if String.eqb id (ID kubeContainer) then Some kubeInspect
       else None |}.

(** The agent carries a directive without target: [tt=img,tm=contains]. *)
Definition targetlessEnv : list string := ["flexDiscoveryRedis=tt=img,tm=contains"].

Definition targetlessClient : Client :=
  sampleClient targetlessEnv [agentContainer; redisContainer].

(** The same annotation as a label of the Redis container. *)
Definition targetlessLabelled : Container :=
  {| ID := ID redisContainer;
     Names := Names redisContainer;
     Image := Image redisContainer;
     Labels := [("flexDiscoveryRedis", "tt=img,tm=contains")];
     Ports := [];
     Networks := Networks redisContainer |}.

(** The agent carries two directives that target Redis. *)
Definition twoDirectivesEnv : list string :=
  ["flexDiscoveryA=t=redis"; "flexDiscoveryB=t=redis"].

Definition twoDirectivesClient : Client :=
  sampleClient twoDirectivesEnv [agentContainer; redisContainer].

(** A host with the address-only template. *)
Definition hostWorld (cli : option Client) : World :=
  sampleWorld hostFiles [redisTemplate] cli (fun _ => None).

(** The agent carries the directive [t=redis,tt=cname] and runs next to the
    Kubernetes Redis container. *)
Definition kubeClient : Client :=
  sampleClient ["flexDiscoveryRedis=t=redis,tt=cname"] [agentContainer; kubeContainer].

(** The sample world with the given files and a parser that rejects every
    text. *)
Definition sampleWorldRejecting (files : string -> option string) : World :=
  {| load_Public := "public";
     load_Private := "private";
     load_DefaultIPMode := "private";
     load_Img := "img";
     load_IntegrationName := "com.newrelic.nri-flex";
     load_IntegrationNameShort := "nri-flex";
     load_Args_OverrideIPMode := "";
     formatter_KvFinder := sampleKvFinder;
     ioutil_ReadFile := files;
     processor_ReadYML := fun _ => None;
     processor_LoadConfigFiles := [];
     setDockerClient := None;
     json_Unmarshal := fun _ => None;
     fmt_Sprintf_v := fun _ => "";
     nat_Port_Port := fun p => p;
     exec_fib_trie := fun _ => None;
     execContainerCommand := fun _ _ => None;
     strings_TrimSpace := fun s => s;
     regexp_ipv4_Match := fun _ => false |}.

(** The Redis container advertising itself by a label. *)
Definition labelledRedis : Container :=
  {| ID := ID redisContainer;
     Names := Names redisContainer;
     Image := Image redisContainer;
     Labels := [("flexDiscoveryRedis", "t=redis,tt=img")];
     Ports := [];
     Networks := Networks redisContainer |}.

(** The agent carries one directive that targets Redis. *)
Definition oneDirectiveClient : Client :=
  sampleClient ["flexDiscoveryRedis=t=redis"] [agentContainer; redisContainer].

(** * Properties *)

(** ** The string functions on sample inputs *)

Example Split_pairs : Split "t=redis,tt=img" "," = ["t=redis"; "tt=img"].
Proof. reflexivity. Qed.

Example Split_empty : Split "" "," = [""].
Proof. reflexivity. Qed.

Example Split_three : Split "t_my_app" "_" = ["t"; "my"; "app"].
Proof. reflexivity. Qed.

Example SplitN2_env :
  SplitN2 "flexDiscoveryX=t=redis,c=r" "=" = ["flexDiscoveryX"; "t=redis,c=r"].
Proof. reflexivity. Qed.

Example SplitN2_none : SplitN2 "PATH" "=" = ["PATH"].
Proof. reflexivity. Qed.

Example Replace_port :
  Replace "a ${auto:port} b ${auto:port}" "${auto:port}" "80" = "a 80 b 80".
Proof. reflexivity. Qed.

Example Replace_overlap : Replace "aaa" "aa" "b" = "ba".
Proof. reflexivity. Qed.

Example TrimPrefix_slash : TrimPrefix "/cache-1" "/" = "cache-1".
Proof. reflexivity. Qed.

Example TrimPrefix_none : TrimPrefix "cache-1" "/" = "cache-1".
Proof. reflexivity. Qed.

Example Contains_yes : Contains "redis:6.2" "redis" = true.
Proof. reflexivity. Qed.

Example Contains_no : Contains "postgres:14" "redis" = false.
Proof. reflexivity. Qed.

Example Sprintf_port : pretty 6379%N = "6379".
Proof. vm_compute. reflexivity. Qed.

(** The first scenario of the specification: the annotation
    [t=redis,tt=img,tm=contains] on a Redis container without port mapping
    and the template [host: ${auto:host}] give [host: 172.17.0.5]. *)
Example scenario_host_only :
  substitute (hostWorld None) redisDirective "flexDiscoveryRedis" redisContainer
    plainInspect "host: ${auto:host}"
  = Ok ("host: 172.17.0.5", "172.17.0.5", "").
Proof. vm_compute. reflexivity. Qed.

(** ** Strings *)

Lemma app_cons (c : ascii) (a b : string) : String c a +:+ b = String c (a +:+ b).
Proof. reflexivity. Qed.

Lemma app_empty (b : string) : "" +:+ b = b.
Proof. reflexivity. Qed.

Lemma app_assoc_s (a b c : string) : (a +:+ b) +:+ c = a +:+ b +:+ c.
Proof. induction a as [|x a IH]; [reflexivity|]. rewrite !app_cons. by rewrite IH. Qed.

Lemma hasByte_app (c : ascii) (a b : string) :
  hasByte c (a +:+ b) = hasByte c a || hasByte c b.
Proof.
  induction a as [|x a IH]; [reflexivity|].
  rewrite app_cons. simpl. rewrite IH. by rewrite orb_assoc.
Qed.

Lemma HasPrefix_byte (c x : ascii) (s : string) :
  HasPrefix (String x s) (String c "") = Ascii.eqb x c.
Proof.
  unfold HasPrefix. simpl. destruct (ascii_dec c x) as [->|Hne].
  - rewrite Ascii.eqb_refl. by destruct s.
  - symmetry. apply Ascii.eqb_neq. congruence.
Qed.

Lemma Contains_byte (c : ascii) (s : string) :
  Contains s (String c "") = hasByte c s.
Proof.
  induction s as [|x s IH]; [reflexivity|].
  change (Contains (String x s) (String c ""))
    with (HasPrefix (String x s) (String c "") || Contains s (String c "")).
  by rewrite HasPrefix_byte, IH.
Qed.

Lemma Split_free (sep : ascii) (s : string) :
  hasByte sep s = false -> Split s sep = [s].
Proof.
  induction s as [|x s IH]; [reflexivity|]. simpl.
  intros [Hx Hs]%orb_false_elim. rewrite Hx, (IH Hs). reflexivity.
Qed.

Lemma Split_app (sep : ascii) (a b : string) :
  hasByte sep a = false -> Split (a +:+ String sep b) sep = a :: Split b sep.
Proof.
  induction a as [|x a IH].
  - intros _. rewrite app_empty. simpl. by rewrite Ascii.eqb_refl.
  - simpl. intros [Hx Ha]%orb_false_elim. rewrite Hx, (IH Ha). reflexivity.
Qed.

Lemma Split_pair (sep : ascii) (a b : string) :
  hasByte sep a = false -> hasByte sep b = false ->
  Split (a +:+ String sep b) sep = [a; b].
Proof. intros Ha Hb. by rewrite (Split_app _ _ _ Ha), (Split_free _ _ Hb). Qed.

Lemma app_regroup (a b r : string) (c : ascii) :
  a +:+ String c (b +:+ r) = (a +:+ String c b) +:+ r.
Proof. by rewrite app_assoc_s, app_cons. Qed.

Lemma hasByte_field (c sep : ascii) (f v : string) :
  hasByte c (f +:+ String sep v) = hasByte c f || (Ascii.eqb sep c || hasByte c v).
Proof. by rewrite hasByte_app. Qed.

(** ** parseFlexDiscoveryLabel *)

(** Two well-formed segments store their two fields, one after the other. *)
Lemma storePairs_two (dc : DiscoveryConfigs) (key : string) (inner : ascii)
    (f1 v1 f2 v2 : string) :
  hasByte inner f1 = false -> hasByte inner v1 = false ->
  hasByte inner f2 = false -> hasByte inner v2 = false ->
  storePairs dc key inner [f1 +:+ String inner v1; f2 +:+ String inner v2]
  = dc1 ← dcSet dc key f1 v1; dcSet dc1 key f2 v2.
Proof.
  intros Hf1 Hv1 Hf2 Hv2. simpl.
  rewrite (Split_pair _ _ _ Hf1 Hv1), (Split_pair _ _ _ Hf2 Hv2).
  destruct (dcSet dc key f1 v1) as [dc1|]; [|reflexivity]. simpl.
  by destruct (dcSet dc1 key f2 v2).
Qed.

Lemma parse_pairList (dc : DiscoveryConfigs) (key f1 v1 f2 v2 : string) :
  separatorFree f1 -> separatorFree v1 -> separatorFree f2 -> separatorFree v2 ->
  parseFlexDiscoveryLabel dc key (pairList f1 v1 f2 v2)
  = dc1 ← dcSet dc key f1 v1; dcSet dc1 key f2 v2.
Proof.
  intros (E1 & C1 & _) (E2 & C2 & _) (E3 & C3 & _) (E4 & C4 & _).
  unfold parseFlexDiscoveryLabel, pairList.
  rewrite !app_cons, !app_empty.
  rewrite Contains_byte, !hasByte_field, E1. simpl.
  rewrite (app_regroup f1 v1 _ "=").
  rewrite Split_app by (by rewrite hasByte_field, C1, C2).
  rewrite Split_free by (by rewrite hasByte_field, C3, C4).
  by apply storePairs_two.
Qed.

Lemma parse_dotted (dc : DiscoveryConfigs) (key f1 v1 f2 v2 : string) :
  separatorFree f1 -> separatorFree v1 -> separatorFree f2 -> separatorFree v2 ->
  parseFlexDiscoveryLabel dc key (dotted f1 v1 f2 v2)
  = dc1 ← dcSet dc key f1 v1; dcSet dc1 key f2 v2.
Proof.
  intros (E1 & _ & D1 & U1) (E2 & _ & D2 & U2) (E3 & _ & D3 & U3) (E4 & _ & D4 & U4).
  unfold parseFlexDiscoveryLabel, dotted.
  rewrite !app_cons, !app_empty.
  rewrite !Contains_byte, !hasByte_field, E1, E2, E3, E4, D1, D2. simpl.
  rewrite (app_regroup f1 v1 _ "_").
  rewrite Split_app by (by rewrite hasByte_field, D1, D2).
  rewrite Split_free by (by rewrite hasByte_field, D3, D4).
  by apply storePairs_two.
Qed.

(** C5, as amended: for field names and values that contain none of the
    separators [=], [,], [.] and [_], the pair-list encoding
    [field1=value1,field2=value2] and the dotted encoding
    [field1_value1.field2_value2] parse to the same raw field map, which
    holds the two fields when the annotation key has its inner map. *)
Theorem C5_encodings_agree_without_separators
    (dc : DiscoveryConfigs) (key f1 v1 f2 v2 : string) :
  separatorFree f1 -> separatorFree v1 -> separatorFree f2 -> separatorFree v2 ->
  parseFlexDiscoveryLabel dc key (pairList f1 v1 f2 v2)
  = parseFlexDiscoveryLabel dc key (dotted f1 v1 f2 v2)
  /\ forall m, dc !! key = Some m ->
       parseFlexDiscoveryLabel dc key (dotted f1 v1 f2 v2)
       = Ok (<[key := <[f2 := v2]> (<[f1 := v1]> m)]> dc).
Proof.
  intros H1 H2 H3 H4. rewrite parse_pairList, parse_dotted by assumption.
  split; [reflexivity|]. intros m Hm. unfold dcSet. rewrite Hm. simpl.
  rewrite lookup_insert_eq. by rewrite insert_insert_eq.
Qed.

Lemma C5_encodings_agree_witness :
  parseFlexDiscoveryLabel {[ "flexDiscoveryRedis" := ∅ ]} "flexDiscoveryRedis"
    (pairList "t" "redis" "tm" "contains")
  = parseFlexDiscoveryLabel {[ "flexDiscoveryRedis" := ∅ ]} "flexDiscoveryRedis"
      (dotted "t" "redis" "tm" "contains").
Proof.
  apply (C5_encodings_agree_without_separators
           {[ "flexDiscoveryRedis" := ∅ ]} "flexDiscoveryRedis"
           "t" "redis" "tm" "contains");
    repeat split; reflexivity.
Defined.

(** C5, as stated, fails for a value that holds an underscore: the pair-list
    encoding keeps the field [t], the dotted encoding skips its segment. *)
Lemma C5_underscore_counterexample :
  parseFlexDiscoveryLabel {[ "flexDiscoveryApp" := ∅ ]} "flexDiscoveryApp"
    (pairList "t" "my_app" "c" "app")
  <> parseFlexDiscoveryLabel {[ "flexDiscoveryApp" := ∅ ]} "flexDiscoveryApp"
       (dotted "t" "my_app" "c" "app").
Proof.
  intros H.
  assert (Hl : forall r : result DiscoveryConfigs,
             r = parseFlexDiscoveryLabel {[ "flexDiscoveryApp" := ∅ ]} "flexDiscoveryApp"
                   (pairList "t" "my_app" "c" "app") ->
             match r with
             | Ok dc => dcGet dc "flexDiscoveryApp" "t"
             | Panic => None
             end = Some "my_app").
  { intros r ->. vm_compute. reflexivity. }
  specialize (Hl _ (eq_sym H)). vm_compute in Hl. discriminate Hl.
Qed.

(** ** findContainerTarget *)

Lemma existsb_claimed (id : string) (ids : list string) :
  In id ids -> existsb (fun id' => String.eqb id' id) ids = true.
Proof.
  intros Hin. apply existsb_exists. exists id. split; [assumption|].
  apply String.eqb_refl.
Qed.

(** The label fallback never changes the Claim Set by itself: it reports a
    hit or a miss. *)
Lemma namesLoop_false (W : World) (dc : DiscoveryConfigs) (container : Container)
    (key : string) (ids ids' : list string) (names : list string) :
  namesLoop W dc container key ids names = Ok (false, ids') -> ids' = ids.
Proof.
  induction names as [|n names IH]; simpl.
  - congruence.
  - destruct (assertString (dcGet dc key "tm")) as [tm|]; [simpl|discriminate].
    destruct (assertString (dcGet dc key "t")) as [t|]; [simpl|discriminate].
    destruct (formatter_KvFinder W tm _ t); [discriminate|].
    destruct (labelFallback W dc (Labels container)) as [[|]|]; simpl;
      [discriminate|exact IH|discriminate].
Qed.

(** C3: when the container's id is in the Claim Set, the target matcher
    returns false for it under every directive and leaves the Claim Set as
    it is; and whenever the matcher returns false, the Claim Set is
    unchanged. *)
Theorem C3_claimed_container_is_never_matched
    (W : World) (dc : DiscoveryConfigs) (container : Container) (key : string)
    (ids : list string) :
  (In (ID container) ids ->
   findContainerTarget W dc container key ids = Ok (false, ids))
  /\ (forall ids', findContainerTarget W dc container key ids = Ok (false, ids') ->
                   ids' = ids).
Proof.
  split.
  - intros Hin. unfold findContainerTarget. by rewrite (existsb_claimed _ _ Hin).
  - intros ids'. unfold findContainerTarget.
    destruct (existsb _ ids); [congruence|].
    destruct (dcGet dc key "tt") as [targetType|]; [|congruence].
    destruct (String.eqb targetType "cname"); [apply namesLoop_false|].
    destruct (String.eqb targetType (load_Img W)); [|congruence].
    destruct (assertString (dcGet dc key "tm")) as [tm|]; [simpl|discriminate].
    destruct (assertString (dcGet dc key "t")) as [t|]; [simpl|discriminate].
    destruct (formatter_KvFinder W tm _ t); [discriminate|congruence].
Qed.

(** The Redis directive matches the Redis container while it is unclaimed,
    and no longer once its id is in the Claim Set. *)
Lemma C3_claimed_container_witness :
  findContainerTarget bareWorld redisDirective redisContainer "flexDiscoveryRedis" []
  = Ok (true, [ID redisContainer])
  /\ findContainerTarget bareWorld redisDirective redisContainer "flexDiscoveryRedis"
       [ID redisContainer]
     = Ok (false, [ID redisContainer]).
Proof.
  split; [vm_compute; reflexivity|].
  apply (C3_claimed_container_is_never_matched bareWorld redisDirective redisContainer
           "flexDiscoveryRedis" [ID redisContainer]).
  simpl. left. reflexivity.
Defined.

(** ** Decoration *)

(** C10: a configuration that passed the placeholder test and was parsed is
    decorated with the bytes 0..12 of the target container's id as
    [IDShort] and appended; when the id has fewer than 12 bytes the
    decoration panics and nothing is appended or skipped. *)
Theorem C10_short_id_slice
    (W : World) (ymls : list load_Config) (targetContainer : Container)
    (text : string) (yml : load_Config) :
  hasPlaceholder text = false ->
  processor_ReadYML W text = Some yml ->
  (String.length (ID targetContainer) < 12 ->
   emit W ymls targetContainer text = Panic)
  /\ (12 <= String.length (ID targetContainer) ->
      exists yml',
        emit W ymls targetContainer text = Ok (ymls ++ [yml'])
        /\ FileName yml' = FileName yml
        /\ exists attrs,
             CustomAttributes yml' = Some attrs
             /\ attrs !! "IDShort" = Some (String.substring 0 12 (ID targetContainer))).
Proof.
  intros Hph Hyml. unfold emit, decorate. rewrite Hph, Hyml. split.
  - intros Hlt. apply Nat.ltb_lt in Hlt. by rewrite Hlt.
  - intros Hge. apply Nat.ltb_ge in Hge. rewrite Hge. simpl.
    eexists. split; [reflexivity|]. split; [reflexivity|].
    eexists. split; [reflexivity|]. apply lookup_insert_eq.
Qed.

Lemma C10_short_id_slice_witness :
  emit bareWorld [] shortIdContainer "host: 172.17.0.5" = Panic
  /\ exists yml',
       emit bareWorld [] redisContainer "host: 172.17.0.5" = Ok [yml']
       /\ FileName yml' = ""
       /\ exists attrs,
            CustomAttributes yml' = Some attrs
            /\ attrs !! "IDShort" = Some "4f2a9c1d7e8b".
Proof.
  split.
  - apply (C10_short_id_slice bareWorld [] shortIdContainer "host: 172.17.0.5"
             {| FileName := ""; CustomAttributes := None |});
      [reflexivity | reflexivity | simpl; lia].
  - apply (C10_short_id_slice bareWorld [] redisContainer "host: 172.17.0.5"
             {| FileName := ""; CustomAttributes := None |});
      [reflexivity | reflexivity | simpl; lia].
Defined.

(** The label fallback reads the directive at the label's own key; when no
    directive is stored under that key, reaching the label panics. *)
Lemma labelFallback_shadowed_key (W : World) (dc : DiscoveryConfigs)
    (labels : list (string * string)) (val : string) :
  dc !! "io.kubernetes.container.name" = None ->
  In ("io.kubernetes.container.name", val) labels ->
  labelFallback W dc labels = Panic.
Proof.
  intros Hdc. induction labels as [|[k v] labels IH]; simpl; [tauto|].
  intros [Heq|Hin].
  - injection Heq as -> ->. simpl. unfold dcGet. by rewrite Hdc.
  - destruct (String.eqb k "io.kubernetes.container.name") eqn:Hk; [|by apply IH].
    apply String.eqb_eq in Hk as ->. unfold dcGet. by rewrite Hdc.
Qed.

(** C6, on the code: the directive [t=redis,tt=cname,tm=contains] meets a
    container whose name does not match and whose label
    [io.kubernetes.container.name] is [redis]. The comparison the claim
    describes would succeed, the matcher panics. *)
Theorem C6_label_fallback_panics :
  formatter_KvFinder bareWorld "contains" "redis" "redis" = true
  /\ findContainerTarget bareWorld cnameDirective kubeContainer "flexDiscoveryRedis" []
     = Panic.
Proof. split; vm_compute; reflexivity. Qed.

(** ** The port override *)

(** Once a directive carries [p], the port mapping is not read, and the
    [switch] on a recognized ip mode stores the empty public or private
    port over the override. *)
Lemma override_dropped_by_mode_switch (W : World) (dc : DiscoveryConfigs) (key p : string)
    (targetContainer : Container) :
  dcGet dc key "p" = Some p ->
  effectiveIPMode W dc key = load_Public W \/ effectiveIPMode W dc key = load_Private W ->
  (selectCoordinates W dc key targetContainer).2 = "".
Proof.
  intros Hp Hmode. unfold selectCoordinates. rewrite Hp.
  destruct (String.eqb (effectiveIPMode W dc key) (load_Public W)) eqn:Hpub; [reflexivity|].
  destruct (String.eqb (effectiveIPMode W dc key) (load_Private W)) eqn:Hpriv; [reflexivity|].
  apply String.eqb_neq in Hpub, Hpriv. tauto.
Qed.

(** C1, on the code: with the override [p=8080], private mode resolves the
    address and an empty port, public mode resolves neither, and the port
    substituted into the template is the exposed port 6379; without the
    override the mapping's private port is taken. *)
Theorem C1_port_override_is_overwritten :
  selectCoordinates bareWorld portDirective "flexDiscoveryRedis" mappedContainer
  = ("172.17.0.5", "")
  /\ selectCoordinates bareWorld publicPortDirective "flexDiscoveryRedis" mappedContainer
     = ("", "")
  /\ substitute bareWorld portDirective "flexDiscoveryRedis" mappedContainer redisInspect
       "port: ${auto:port}"
     = Ok ("port: 6379", "172.17.0.5", "6379")
  /\ selectCoordinates bareWorld redisDirective "flexDiscoveryRedis" mappedContainer
     = ("172.17.0.5", "6379").
Proof. repeat split; vm_compute; reflexivity. Qed.

(** ** findFlexContainerID *)

Lemma fold_keep {A : Type} (f : string -> A -> string) (l : list A) (id : string) :
  (forall s a, In a l -> f s a = s) -> fold_left f l id = id.
Proof.
  revert id. induction l as [|a l IH]; simpl; [reflexivity|]. intros id Hf.
  rewrite Hf by (by left). apply IH. intros s b Hb. apply Hf. by right.
Qed.

(** A known self id is kept by every unit of work. *)
Lemma flexContainerStep_known (W : World) (id : string) (container : Container) :
  id <> "" -> flexContainerStep W id container = id.
Proof.
  intros Hid. apply String.eqb_neq in Hid. unfold flexContainerStep. cbv zeta.
  rewrite Hid, andb_false_r. cbv iota. rewrite Hid. cbv iota. rewrite Hid. reflexivity.
Qed.

(** A container that satisfies none of the three steps leaves the self id
    unknown. *)
Lemma flexContainerStep_miss (W : World) (container : Container) :
  flexCandidate W container = false -> flexContainerStep W "" container = "".
Proof.
  unfold flexCandidate, flexContainerStep.
  intros [[Himg Hnames]%orb_false_elim Hlabels]%orb_false_elim.
  cbv zeta. rewrite Himg. simpl.
  rewrite (fold_keep _ (Names container)); simpl.
  - apply fold_keep. intros s [k v] Hin. simpl.
    destruct (String.eqb k "io.kubernetes.container.name") eqn:Hk; [|reflexivity].
    destruct (Contains v (load_IntegrationNameShort W)) eqn:Hv; [|reflexivity].
    assert (Hex : existsb (fun kv => String.eqb kv.1 "io.kubernetes.container.name"
                             && Contains kv.2 (load_IntegrationNameShort W))
                    (Labels container) = true).
    { apply existsb_exists. exists (k, v). simpl. by rewrite Hk, Hv. }
    congruence.
  - intros s n Hin.
    destruct (Contains (TrimPrefix n "/") (load_IntegrationNameShort W)) eqn:Hn;
      [|reflexivity].
    assert (Hex : existsb (fun containerName =>
                             Contains (TrimPrefix containerName "/")
                                      (load_IntegrationNameShort W))
                    (Names container) = true).
    { apply existsb_exists. exists n. by rewrite Hn. }
    congruence.
Qed.


Lemma fold_flex_known (W : World) (containers : list Container) (id : string) :
  id <> "" -> fold_left (flexContainerStep W) containers id = id.
Proof.
  revert id. induction containers as [|c containers IH]; simpl; [reflexivity|].
  intros id Hid. rewrite (flexContainerStep_known W id c Hid). by apply IH.
Qed.





(** ** Substitution keeps the other placeholders *)






Section ReplaceKeeps.

(** [old] and [pat] start with the byte [d], which occurs nowhere else in
    them, and [old] is not a prefix of a text that starts with [pat]. *)
Variables (d : ascii) (old' pat' new : string).
Hypothesis Hold : hasByte d old' = false.
Hypothesis Hpat : hasByte d pat' = false.
Hypothesis Hdiff : forall b, HasPrefix (String d pat' +:+ b) (String d old') = false.






End ReplaceKeeps.


(** ** addDynamicConfig emits complete configurations only *)

Lemma hasPlaceholder_false (text : string) :
  hasPlaceholder text = false ->
  Contains text "${auto:host}" = false /\ Contains text "${auto:ip}" = false
  /\ Contains text "${auto:port}" = false.
Proof.
  unfold hasPlaceholder. intros [[H1 H2]%orb_false_elim H3]%orb_false_elim. auto.
Qed.

(** One template appends at most one configuration, and only from a text
    without placeholder. *)
Lemma addDynamicConfigFor_emits (W : World) (containerYml : load_Config)
    (dc : DiscoveryConfigs) (ymls ymls' : list load_Config) (c : Container)
    (insp : ContainerJSON) (key path : string) :
  addDynamicConfigFor W containerYml dc ymls c insp key path = Ok ymls' ->
  ymls' = ymls
  \/ exists y, ymls' = ymls ++ [y]
               /\ emittedFrom W [containerYml] dc c insp key path y.
Proof.
  unfold addDynamicConfigFor.
  destruct (String.eqb (FileName containerYml) (configNameOf dc key));
    [|intros [= <-]; by left].
  destruct (ioutil_ReadFile W (path +:+ FileName containerYml)) as [template|] eqn:Hread;
    [|intros [= <-]; by left].
  destruct (substitute W dc key c insp template) as [[[text ip] port]|] eqn:Hsub;
    [simpl|discriminate].
  unfold emit. destruct (hasPlaceholder text) eqn:Hph; [intros [= <-]; by left|].
  destruct (processor_ReadYML W text) as [yml|] eqn:Hyml; [|intros [= <-]; by left].
  destruct (decorate yml c) as [y|] eqn:Hdec; [simpl|discriminate].
  intros [= <-]. right. exists y. split; [reflexivity|].
  destruct (hasPlaceholder_false _ Hph) as (H1 & H2 & H3).
  exists containerYml, template, text, ip, port, yml.
  repeat split; try assumption. by left.
Qed.

Lemma emittedFrom_weaken (W : World) (l1 l2 : list load_Config) (dc : DiscoveryConfigs)
    (c : Container) (insp : ContainerJSON) (key path : string) (y : load_Config) :
  (forall t, In t l1 -> In t l2) ->
  emittedFrom W l1 dc c insp key path y -> emittedFrom W l2 dc c insp key path y.
Proof.
  intros Hsub (t & template & text & ip & port & yml & Hin & H).
  exists t, template, text, ip, port, yml. split; [by apply Hsub|exact H].
Qed.

Lemma addDynamicConfig_emits (W : World) (containerYmls : list load_Config)
    (dc : DiscoveryConfigs) (c : Container) (insp : ContainerJSON) (key path : string)
    (ymls ymls' : list load_Config) :
  addDynamicConfig W containerYmls dc ymls c insp key path = Ok ymls' ->
  exists added,
    ymls' = ymls ++ added
    /\ Forall (emittedFrom W containerYmls dc c insp key path) added.
Proof.
  revert ymls. induction containerYmls as [|t rest IH]; intros ymls; simpl.
  - intros [= <-]. exists []. by rewrite app_nil_r.
  - destruct (addDynamicConfigFor W t dc ymls c insp key path) as [ymls1|] eqn:Hone;
      [simpl|discriminate].
    intros (added & -> & Hall)%IH.
    assert (Hrest : Forall (emittedFrom W (t :: rest) dc c insp key path) added).
    { eapply Forall_impl; [exact Hall|]. intros y. apply emittedFrom_weaken.
      intros x Hx. by right. }
    destruct (addDynamicConfigFor_emits _ _ _ _ _ _ _ _ _ Hone) as [->|(y & -> & Hy)].
    + by exists added.
    + exists (y :: added). split; [by rewrite <- app_assoc|].
      constructor; [|exact Hrest].
      eapply emittedFrom_weaken; [|exact Hy]. intros x [<-|[]]. by left.
Qed.

(** ** No port source, no emission *)

Lemma kubePortsLoop_none (W : World) (x : list jvalue) (st : string * string) :
  Forall (fun v => exists fields,
            v = JObject fields /\ objectField fields "containerPort" = None) x ->
  kubePortsLoop W x st = Ok st.
Proof.
  induction 1 as [|v x (fields & -> & Hnone) _ IH]; simpl; [reflexivity|].
  by rewrite Hnone.
Qed.

Lemma kubeLabelsLoop_none (W : World) (labels : list (string * string))
    (st : string * string) :
  noKubePort W labels -> kubeLabelsLoop W labels st = Ok st.
Proof.
  induction labels as [|[k v] labels IH]; simpl; [reflexivity|]. intros Hno.
  assert (Hrest : noKubePort W labels).
  { intros val x Hin. apply Hno. by right. }
  destruct (String.eqb k "annotation.io.kubernetes.container.ports") eqn:Hk;
    [|by apply IH].
  apply String.eqb_eq in Hk as ->.
  destruct (json_Unmarshal W v) as [x|] eqn:Hx; [|by apply IH].
  rewrite (kubePortsLoop_none W x st); [simpl; by apply IH|].
  apply (Hno v x); [by left|assumption].
Qed.

Lemma substitutePort_none (W : World) (c : Container) (insp : ContainerJSON)
    (ymlString : string) :
  noKubePort W (Labels c) -> noExposedPort insp ->
  substitutePort W c insp ymlString "" = Ok (ymlString, "").
Proof.
  intros Hkube Hexp. unfold substitutePort. simpl.
  rewrite (kubeLabelsLoop_none W _ _ Hkube). simpl.
  unfold exposedPortFallback, noExposedPort in *. simpl.
  destruct (Config insp) as [config|]; [|reflexivity]. by rewrite Hexp.
Qed.





(** ** The lookups *)

(** The reverse lookup asks the runtime for an inspection at every
    directive entry of every container, whatever the inspection cache
    holds. *)
Lemma reverseEntry_always_inspects (W : World) (cli : Client)
    (containerYmls : list load_Config) (path : string) (container : Container)
    (st st' : Pass) (key val : string) :
  Contains key "flexDiscovery" = true ->
  reverseEntry W cli containerYmls path container st (key, val) = Ok st' ->
  inspectCalls st' = inspectCalls st ++ [ID container].
Proof.
  intros Hkey. unfold reverseEntry. rewrite Hkey.
  destruct (parseFlexDiscoveryLabel _ key val) as [dc1|]; [simpl|discriminate].
  match goal with |- context [mbind _ ?r] => destruct r as [dc2|] end;
    [simpl|discriminate].
  destruct (ContainerInspect cli (ID container)) as [insp|]; [|by intros [= <-]].
  destruct (findContainerTarget W dc2 container key _) as [[[|] ids]|];
    [simpl| |discriminate].
  - destruct (addDynamicConfig W containerYmls dc2 _ container insp key path);
      [simpl|discriminate].
    by intros [= <-].
  - simpl. by intros [= <-].
Qed.

(** C2, on the code: the value [tt=img,tm=contains] decodes to a field map
    without [t]; the forward lookup discards it, the reverse lookup enters
    the target matcher with it and panics at the image comparison. *)
Theorem C2_targetless_directive_reaches_matcher :
  (exists dc,
     parseFlexDiscoveryLabel {[ "flexDiscoveryRedis" := ∅ ]} "flexDiscoveryRedis"
       "tt=img,tm=contains" = Ok dc
     /\ dcGet dc "flexDiscoveryRedis" "t" = None
     /\ findContainerTarget bareWorld dc redisContainer "flexDiscoveryRedis" [] = Panic)
  /\ runReverseLookup (hostWorld None) targetlessClient [agentContainer; redisContainer]
       [redisTemplate] "/etc/flex/" (ID agentContainer) (initialPass [])
     = Panic
  /\ exists st,
       runForwardLookup (hostWorld None) targetlessClient [agentContainer; targetlessLabelled]
         [redisTemplate] "/etc/flex/" (ID agentContainer) (initialPass [])
       = Ok st
       /\ ymls st = [].
Proof.
  split; [|split].
  - eexists. split; [vm_compute; reflexivity|]. split; vm_compute; reflexivity.
  - vm_compute. reflexivity.
  - eexists. split; vm_compute; reflexivity.
Qed.

(** C7, on the code: with two directives on the agent, the reverse lookup
    inspects the Redis container once per directive. The first directive
    matches and stores the inspection in the cache; the entry of the second
    directive calls the runtime for the same id all the same. *)
Theorem C7_reverse_lookup_inspects_again :
  (exists st,
     runReverseLookup (hostWorld None) twoDirectivesClient [agentContainer; redisContainer]
       [redisTemplate] "/etc/flex/" (ID agentContainer) (initialPass [])
     = Ok st
     /\ inspectCalls st = [ID agentContainer; ID redisContainer; ID redisContainer]
     /\ map JSON_ID (inspectedContainers st) = [ID agentContainer; ID redisContainer]
     /\ foundTargetContainerIds st = [ID redisContainer]
     /\ length (ymls st) = 1)
  /\ (exists st1 st2,
        reverseEntry (hostWorld None) twoDirectivesClient [redisTemplate] "/etc/flex/"
          redisContainer (initialPass []) ("flexDiscoveryA", "t=redis") = Ok st1
        /\ map JSON_ID (inspectedContainers st1) = [ID redisContainer]
        /\ reverseEntry (hostWorld None) twoDirectivesClient [redisTemplate] "/etc/flex/"
             redisContainer st1 ("flexDiscoveryB", "t=redis") = Ok st2
        /\ inspectCalls st2 = inspectCalls st1 ++ [ID redisContainer]).
Proof.
  split.
  - eexists. repeat split; vm_compute; reflexivity.
  - eexists. eexists. split; [vm_compute; reflexivity|].
    split; [vm_compute; reflexivity|]. split; vm_compute; reflexivity.
Qed.

(** ** The pass as a whole *)

(** When the runtime client cannot be built or the listing fails, [Run]
    leaves its two outputs as they were. *)
Lemma Run_failure (W : World) (available : bool) (containers : list Container) :
  setDockerClient W = None
  \/ (exists cli, setDockerClient W = Some cli /\ ContainerList cli = None) ->
  Run W available containers = (available, containers).
Proof.
  unfold Run. intros [->|(cli & -> & ->)]; reflexivity.
Qed.

(** When the runtime client cannot be built, the pass returns with the
    output collection and the self id as they were. *)
Lemma Create_client_failure (W : World) (containers : list Container) (path : string)
    (ymls : list load_Config) (containerID : string) :
  setDockerClient W = None ->
  CreateDynamicContainerConfigs W containers path ymls containerID
  = Ok (containerID, initialPass ymls).
Proof. unfold CreateDynamicContainerConfigs. by intros ->. Qed.

(** C9, on the code: one container whose orchestrator label is reached by
    the name matcher makes the whole pass panic. *)
Theorem C9_one_container_aborts_the_pass :
  CreateDynamicContainerConfigs (hostWorld (Some kubeClient))
    [agentContainer; kubeContainer] "/etc/flex/" [] ""
  = Panic.
Proof. vm_compute. reflexivity. Qed.

(** * Further properties of the code *)

(** ** parseFlexDiscoveryLabel keeps to its annotation key *)

Lemma storePairs_frame (key : string) (inner : ascii) (labelValues : list string) :
  forall (dc : DiscoveryConfigs) (m : gmap string string),
    dc !! key = Some m ->
    exists m',
      storePairs dc key inner labelValues = Ok (<[key := m']> dc)
      /\ forall field, is_Some (m !! field) -> is_Some (m' !! field).
Proof.
  induction labelValues as [|value rest IH]; intros dc m Hm; simpl.
  - exists m. split; [by rewrite insert_id|auto].
  - destruct (Split value inner) as [|k [|v [|x l]]]; try (by apply IH).
    unfold dcSet. rewrite Hm. simpl.
    destruct (IH (<[key := <[k := v]> m]> dc) (<[k := v]> m)) as (m' & -> & Hkeep).
    { apply lookup_insert_eq. }
    exists m'. split; [by rewrite insert_insert_eq|].
    intros field Hfield. apply Hkeep.
    destruct (decide (k = field)) as [->|Hne].
    + rewrite lookup_insert_eq. eauto.
    + by rewrite lookup_insert_ne.
Qed.

(** Once the annotation key has its inner map, parsing any value returns
    without panic, changes the entry of that key only, and drops none of
    the fields the inner map already had. *)
Theorem parse_changes_one_entry
    (dc : DiscoveryConfigs) (key val : string) (m : gmap string string) :
  dc !! key = Some m ->
  exists m',
    parseFlexDiscoveryLabel dc key val = Ok (<[key := m']> dc)
    /\ (forall field, is_Some (m !! field) -> is_Some (m' !! field))
    /\ forall other, other <> key -> (<[key := m']> dc) !! other = dc !! other.
Proof.
  intros Hm.
  assert (Hframe : forall m', forall other, other <> key ->
            (<[key := m']> dc) !! other = dc !! other).
  { intros m' other Hne. by rewrite lookup_insert_ne. }
  unfold parseFlexDiscoveryLabel.
  destruct (Contains val "=").
  - destruct (storePairs_frame key "=" (Split val ",") dc m Hm) as (m' & Hs & Hk).
    exists m'. auto.
  - destruct (Contains val ".").
    + destruct (storePairs_frame key "_" (Split val ".") dc m Hm) as (m' & Hs & Hk).
      exists m'. auto.
    + exists m. split; [by rewrite insert_id|]. auto.
Qed.

Lemma parse_changes_one_entry_witness :
  exists m',
    parseFlexDiscoveryLabel {[ "flexDiscoveryRedis" := {[ "r" := "false" ]} ]}
      "flexDiscoveryRedis" "t=redis,broken,tm=contains"
    = Ok (<["flexDiscoveryRedis" := m']> {[ "flexDiscoveryRedis" := {[ "r" := "false" ]} ]})
    /\ (forall field, is_Some (({[ "r" := "false" ]} : gmap string string) !! field) ->
                      is_Some (m' !! field))
    /\ forall other, other <> "flexDiscoveryRedis" ->
         (<["flexDiscoveryRedis" := m']> {[ "flexDiscoveryRedis" := {[ "r" := "false" ]} ]}
            : DiscoveryConfigs) !! other
         = ({[ "flexDiscoveryRedis" := {[ "r" := "false" ]} ]} : DiscoveryConfigs) !! other.
Proof.
  apply (parse_changes_one_entry {[ "flexDiscoveryRedis" := {[ "r" := "false" ]} ]}
           "flexDiscoveryRedis" "t=redis,broken,tm=contains" {[ "r" := "false" ]}).
  reflexivity.
Defined.

(** A value with one field only is decoded in the pair-list encoding and
    ignored in the dotted encoding, which is recognized by its [.]. *)
Theorem single_field_dotted_is_ignored
    (dc : DiscoveryConfigs) (key f v : string) (m : gmap string string) :
  separatorFree f -> separatorFree v ->
  dc !! key = Some m ->
  parseFlexDiscoveryLabel dc key (f +:+ "_" +:+ v) = Ok dc
  /\ parseFlexDiscoveryLabel dc key (f +:+ "=" +:+ v) = Ok (<[key := <[f := v]> m]> dc).
Proof.
  intros (E1 & C1 & D1 & U1) (E2 & C2 & D2 & U2) Hm.
  unfold parseFlexDiscoveryLabel. rewrite !app_cons, !app_empty.
  rewrite !Contains_byte, !hasByte_field, E1, E2, D1, D2. simpl. split; [reflexivity|].
  rewrite Split_free by (by rewrite hasByte_field, C1, C2).
  simpl. rewrite (Split_pair _ _ _ E1 E2). unfold dcSet. by rewrite Hm.
Qed.

Lemma single_field_dotted_witness :
  parseFlexDiscoveryLabel {[ "flexDiscoveryRedis" := ∅ ]} "flexDiscoveryRedis"
    ("t" +:+ "_" +:+ "redis")
  = Ok {[ "flexDiscoveryRedis" := ∅ ]}
  /\ parseFlexDiscoveryLabel {[ "flexDiscoveryRedis" := ∅ ]} "flexDiscoveryRedis"
       ("t" +:+ "=" +:+ "redis")
     = Ok (<["flexDiscoveryRedis" := <["t" := "redis"]> ∅]>
             {[ "flexDiscoveryRedis" := ∅ ]}).
Proof.
  apply (single_field_dotted_is_ignored {[ "flexDiscoveryRedis" := ∅ ]}
           "flexDiscoveryRedis" "t" "redis" ∅); repeat split; reflexivity.
Defined.

(** ** The environment entries of the annotation map *)

Lemma SplitN2_free (sep : ascii) (s : string) :
  hasByte sep s = false -> SplitN2 s sep = [s].
Proof.
  induction s as [|x s IH]; [reflexivity|]. simpl.
  intros [Hx Hs]%orb_false_elim. rewrite Hx, (IH Hs). reflexivity.
Qed.

Lemma SplitN2_first (sep : ascii) (k v : string) :
  hasByte sep k = false -> SplitN2 (k +:+ String sep v) sep = [k; v].
Proof.
  induction k as [|x k IH].
  - intros _. rewrite app_empty. simpl. by rewrite Ascii.eqb_refl.
  - simpl. intros [Hx Hk]%orb_false_elim. rewrite Hx, (IH Hk). reflexivity.
Qed.

(** An environment entry is split at its first [=]: the value may hold
    further [=] signs, as a pair-list directive does. An entry without [=]
    is skipped. *)
Theorem addEnv_splits_at_first_equals
    (env : list string) (discoveryLoop : list (string * string)) (k v s : string) :
  hasByte "=" k = false -> hasByte "=" s = false ->
  addEnv (env ++ [k +:+ "=" +:+ v]) discoveryLoop = mapSet k v (addEnv env discoveryLoop)
  /\ addEnv (env ++ [s]) discoveryLoop = addEnv env discoveryLoop.
Proof.
  intros Hk Hs. unfold addEnv. rewrite !fold_left_app. simpl.
  rewrite app_cons, app_empty, (SplitN2_first _ _ _ Hk), (SplitN2_free _ _ Hs).
  split; reflexivity.
Qed.

Lemma addEnv_splits_witness :
  addEnv ([] ++ ["flexDiscoveryRedis" +:+ "=" +:+ "t=redis,tm=contains"]) []
  = mapSet "flexDiscoveryRedis" "t=redis,tm=contains" (addEnv [] [])
  /\ addEnv ([] ++ ["PATH"]) [] = addEnv [] [].
Proof.
  apply (addEnv_splits_at_first_equals [] [] "flexDiscoveryRedis" "t=redis,tm=contains"
           "PATH"); reflexivity.
Defined.

(** ** What a match does to the Claim Set *)

Lemma existsb_unclaimed (id : string) (ids : list string) :
  existsb (fun id' => String.eqb id' id) ids = false -> ~ In id ids.
Proof.
  intros Hex Hin. by rewrite (existsb_claimed _ _ Hin) in Hex.
Qed.

Lemma namesLoop_true (W : World) (dc : DiscoveryConfigs) (container : Container)
    (key : string) (ids ids' : list string) (names : list string) :
  namesLoop W dc container key ids names = Ok (true, ids') ->
  ids' = ids ++ [ID container].
Proof.
  induction names as [|n names IH]; simpl; [discriminate|].
  destruct (assertString (dcGet dc key "tm")) as [tm|]; [simpl|discriminate].
  destruct (assertString (dcGet dc key "t")) as [t|]; [simpl|discriminate].
  destruct (formatter_KvFinder W tm _ t); [by intros [= <-]|].
  destruct (labelFallback W dc (Labels container)) as [[|]|]; simpl;
    [by intros [= <-]|exact IH|discriminate].
Qed.

Lemma match_claims_the_container_once_holds
    (W : World) (dc : DiscoveryConfigs) (container : Container) (key : string)
    (ids ids' : list string) :
  findContainerTarget W dc container key ids = Ok (true, ids') ->
  ids' = ids ++ [ID container]
  /\ ~ In (ID container) ids
  /\ (List.NoDup ids -> List.NoDup ids').
Proof.
  unfold findContainerTarget.
  destruct (existsb _ ids) eqn:Hex; [discriminate|].
  apply existsb_unclaimed in Hex. intros Hres.
  assert (Hids : ids' = ids ++ [ID container]).
  { destruct (dcGet dc key "tt") as [targetType|]; [|discriminate].
    destruct (String.eqb targetType "cname"); [by eapply namesLoop_true|].
    destruct (String.eqb targetType (load_Img W)); [|discriminate].
    destruct (assertString (dcGet dc key "tm")) as [tm|]; [simpl in Hres|discriminate].
    destruct (assertString (dcGet dc key "t")) as [t|]; [simpl in Hres|discriminate].
    destruct (formatter_KvFinder W tm _ t); [|discriminate].
    by injection Hres as <-. }
  split; [exact Hids|]. split; [exact Hex|].
  intros Hnd. subst ids'. apply List.NoDup_app. repeat split; try assumption.
  - constructor; [intros []|constructor].
  - intros x Hx [<-|[]]. contradiction.
Qed.

(** A match records the container's id at the end of the Claim Set, the id
    was not in it before, and a Claim Set without repetition stays so. *)
Theorem match_claims_the_container_once
    (W : World) (dc : DiscoveryConfigs) (container : Container) (key : string)
    (ids ids' : list string) :
  findContainerTarget W dc container key ids = Ok (true, ids') ->
  ids' = ids ++ [ID container]
  /\ ~ In (ID container) ids
  /\ (List.NoDup ids -> List.NoDup ids').
Proof. apply match_claims_the_container_once_holds. Qed.

Lemma match_claims_witness :
  [ID redisContainer] = [] ++ [ID redisContainer]
  /\ ~ In (ID redisContainer) []
  /\ (List.NoDup (A := string) [] -> List.NoDup [ID redisContainer]).
Proof.
  apply (match_claims_the_container_once bareWorld redisDirective redisContainer
           "flexDiscoveryRedis" [] [ID redisContainer]).
  vm_compute. reflexivity.
Defined.

(** ** What the matcher compares *)

Lemma labelFallback_absent (W : World) (dc : DiscoveryConfigs)
    (labels : list (string * string)) :
  (forall val, ~ In ("io.kubernetes.container.name", val) labels) ->
  labelFallback W dc labels = Ok false.
Proof.
  induction labels as [|[k v] labels IH]; simpl; [reflexivity|]. intros Hno.
  destruct (String.eqb k "io.kubernetes.container.name") eqn:Hk.
  - apply String.eqb_eq in Hk as ->. exfalso. apply (Hno v). by left.
  - apply IH. intros val Hin. apply (Hno val). by right.
Qed.

(** For an unclaimed container and a directive of target type [img], the
    matcher returns what [KvFinder] says of the image under the directive's
    match mode and target. *)
Theorem image_match_is_KvFinder_on_image
    (W : World) (dc : DiscoveryConfigs) (container : Container) (key tm t : string)
    (ids : list string) :
  ~ In (ID container) ids ->
  load_Img W <> "cname" ->
  dcGet dc key "tt" = Some (load_Img W) ->
  dcGet dc key "tm" = Some tm ->
  dcGet dc key "t" = Some t ->
  findContainerTarget W dc container key ids
  = Ok (if formatter_KvFinder W tm (Image container) t
        then (true, ids ++ [ID container]) else (false, ids)).
Proof.
  intros Hnew Himg Htt Htm Ht. unfold findContainerTarget.
  assert (Hex : existsb (fun id => String.eqb id (ID container)) ids = false).
  { destruct (existsb _ ids) eqn:Hex; [|reflexivity].
    apply existsb_exists in Hex as (x & Hx & ->%String.eqb_eq). contradiction. }
  rewrite Hex, Htt, Htm, Ht. apply String.eqb_neq in Himg. rewrite Himg.
  rewrite String.eqb_refl. simpl. by destruct (formatter_KvFinder W tm _ t).
Qed.

Lemma image_match_witness :
  findContainerTarget bareWorld redisDirective redisContainer "flexDiscoveryRedis" []
  = Ok (if formatter_KvFinder bareWorld "contains" (Image redisContainer) "redis"
        then (true, [] ++ [ID redisContainer]) else (false, [])).
Proof.
  apply (image_match_is_KvFinder_on_image bareWorld redisDirective redisContainer
           "flexDiscoveryRedis" "contains" "redis" []);
    [intros [] | discriminate | reflexivity | reflexivity | reflexivity].
Defined.

Lemma namesLoop_no_label (W : World) (dc : DiscoveryConfigs) (container : Container)
    (key tm t : string) (ids : list string) (names : list string) :
  noNameLabel container ->
  dcGet dc key "tm" = Some tm ->
  dcGet dc key "t" = Some t ->
  namesLoop W dc container key ids names
  = Ok (if existsb (fun containerName =>
                      formatter_KvFinder W tm (TrimPrefix containerName "/") t) names
        then (true, ids ++ [ID container]) else (false, ids)).
Proof.
  intros Hno Htm Ht. induction names as [|n names IH]; simpl; [reflexivity|].
  rewrite Htm, Ht. simpl.
  destruct (formatter_KvFinder W tm (TrimPrefix n "/") t); [reflexivity|].
  rewrite (labelFallback_absent W dc _ Hno). simpl. exact IH.
Qed.

(** For an unclaimed container without the orchestrator container-name
    label and a directive of target type [cname], the matcher returns
    whether [KvFinder] accepts one of the names, each stripped of a leading
    slash. *)
Theorem name_match_is_KvFinder_on_stripped_names
    (W : World) (dc : DiscoveryConfigs) (container : Container) (key tm t : string)
    (ids : list string) :
  ~ In (ID container) ids ->
  noNameLabel container ->
  dcGet dc key "tt" = Some "cname" ->
  dcGet dc key "tm" = Some tm ->
  dcGet dc key "t" = Some t ->
  findContainerTarget W dc container key ids
  = Ok (if existsb (fun containerName =>
                      formatter_KvFinder W tm (TrimPrefix containerName "/") t)
                   (Names container)
        then (true, ids ++ [ID container]) else (false, ids)).
Proof.
  intros Hnew Hno Htt Htm Ht. unfold findContainerTarget.
  assert (Hex : existsb (fun id => String.eqb id (ID container)) ids = false).
  { destruct (existsb _ ids) eqn:Hex; [|reflexivity].
    apply existsb_exists in Hex as (x & Hx & ->%String.eqb_eq). contradiction. }
  rewrite Hex, Htt. simpl. by apply namesLoop_no_label.
Qed.

Lemma name_match_witness :
  findContainerTarget bareWorld
    {[ "flexDiscoveryCache" := <["tt" := "cname"]> (<["tm" := "contains"]>
                                 (<["t" := "cache"]> ∅)) ]}
    redisContainer "flexDiscoveryCache" []
  = Ok (if existsb (fun containerName =>
                      formatter_KvFinder bareWorld "contains"
                        (TrimPrefix containerName "/") "cache")
                   (Names redisContainer)
        then (true, [] ++ [ID redisContainer]) else (false, [])).
Proof.
  apply (name_match_is_KvFinder_on_stripped_names bareWorld _ redisContainer
           "flexDiscoveryCache" "contains" "cache" []);
    [intros [] | intros val [] | reflexivity | reflexivity | reflexivity].
Defined.

(** ** The address fallbacks *)

Lemma lowLevelIpv4Fetch_result (W : World) (ip : string) (pid : Z) :
  (ip <> "" -> lowLevelIpv4Fetch W ip pid = ip)
  /\ (lowLevelIpv4Fetch W ip pid = ip
      \/ regexp_ipv4_Match W (lowLevelIpv4Fetch W ip pid) = true).
Proof.
  unfold lowLevelIpv4Fetch. destruct (String.eqb ip "") eqn:Hip.
  - apply String.eqb_eq in Hip as ->. split; [congruence|].
    destruct (exec_fib_trie W pid) as [output|]; [|by left].
    destruct (regexp_ipv4_Match W (strings_TrimSpace W output)) eqn:Hm;
      [by right|by left].
  - split; [reflexivity|by left].
Qed.

Lemma execHostnameFallback_result (W : World) (ip containerID : string) :
  (ip <> "" -> execHostnameFallback W ip containerID = ip)
  /\ (execHostnameFallback W ip containerID = ip
      \/ regexp_ipv4_Match W (execHostnameFallback W ip containerID) = true).
Proof.
  unfold execHostnameFallback. destruct (String.eqb ip "") eqn:Hip.
  - apply String.eqb_eq in Hip as ->. split; [congruence|].
    destruct (execContainerCommand W containerID _) as [out|]; [|by left].
    destruct (regexp_ipv4_Match W (strings_TrimSpace W out)) eqn:Hm;
      [|rewrite andb_false_r; by left].
    destruct (negb (String.eqb out "") && true && negb (Contains out "exec failed"));
      [by right|by left].
  - split; [reflexivity|by left].
Qed.

Lemma fallbacks_keep_or_validate_holds
    (W : World) (discoveryIPAddress : string) (pid : Z) (containerID : string) :
  let resolved :=
    execHostnameFallback W (lowLevelIpv4Fetch W discoveryIPAddress pid) containerID in
  (discoveryIPAddress <> "" -> resolved = discoveryIPAddress)
  /\ (resolved = discoveryIPAddress \/ regexp_ipv4_Match W resolved = true).
Proof.
  cbv zeta.
  destruct (lowLevelIpv4Fetch_result W discoveryIPAddress pid) as [Hkeep1 Hval1].
  destruct (execHostnameFallback_result W (lowLevelIpv4Fetch W discoveryIPAddress pid)
              containerID) as [Hkeep2 Hval2].
  split.
  - intros Hip. rewrite (Hkeep1 Hip) in *. by apply Hkeep2.
  - destruct Hval2 as [->|Hm]; [exact Hval1|by right].
Qed.

(** The two fallbacks leave a known address as it is, and an address they
    store has passed the IPv4 pattern. *)
Theorem fallbacks_keep_or_validate
    (W : World) (discoveryIPAddress : string) (pid : Z) (containerID : string) :
  let resolved :=
    execHostnameFallback W (lowLevelIpv4Fetch W discoveryIPAddress pid) containerID in
  (discoveryIPAddress <> "" -> resolved = discoveryIPAddress)
  /\ (resolved = discoveryIPAddress \/ regexp_ipv4_Match W resolved = true).
Proof. apply fallbacks_keep_or_validate_holds. Qed.

(** ** Replace leaves a text without occurrence alone *)

Lemma Contains_false_cons (c : ascii) (s p : string) :
  Contains (String c s) p = false ->
  HasPrefix (String c s) p = false /\ Contains s p = false.
Proof. cbn [Contains]. by intros [? ?]%orb_false_elim. Qed.

Lemma ReplaceFrom_unfold (c : ascii) (s old new : string) :
  ReplaceFrom 0 (String c s) old new
  = if HasPrefix (String c s) old
    then new +:+ ReplaceFrom (String.length old - 1) s old new
    else String c (ReplaceFrom 0 s old new).
Proof. reflexivity. Qed.

(** A text in which [old] does not occur is returned as it is. *)
Theorem Replace_without_occurrence (s old new : string) :
  Contains s old = false -> Replace s old new = s.
Proof.
  unfold Replace. induction s as [|c s IH]; [reflexivity|].
  intros [Hhere Hlater]%Contains_false_cons.
  rewrite ReplaceFrom_unfold, Hhere. by rewrite (IH Hlater).
Qed.

Lemma Replace_without_occurrence_witness :
  Replace "host: localhost" "${auto:port}" "6379" = "host: localhost".
Proof. apply (Replace_without_occurrence "host: localhost" "${auto:port}" "6379"). reflexivity. Defined.

(** ** Replace leaves no occurrence behind *)

Section ReplaceComplete.

(** [new] starts with the byte [n0], which does not occur in [pat]; [pat]
    starts with the byte [p0], which does not occur in [new]. *)
Variables (old pat' new' : string) (n0 p0 : ascii).
Hypothesis Hn0 : hasByte n0 (String p0 pat') = false.
Hypothesis Hp0 : hasByte p0 (String n0 new') = false.

Let new := String n0 new'.
Let pat := String p0 pat'.

(** A prefix of the result that does not hold [n0] is a prefix of the
    source. *)
Lemma prefix_of_result (s q : string) :
  hasByte n0 q = false ->
  String.prefix q (ReplaceFrom 0 s old new) = true -> String.prefix q s = true.
Proof.
  revert q. induction s as [|c s IH]; intros q Hq.
  - simpl. by destruct q.
  - destruct q as [|x q]; [reflexivity|]. simpl in Hq.
    apply orb_false_elim in Hq as [Hx Hq].
    rewrite ReplaceFrom_unfold. destruct (HasPrefix (String c s) old).
    + subst new. rewrite app_cons. simpl.
      destruct (ascii_dec x n0) as [->|]; [|discriminate].
      by rewrite Ascii.eqb_refl in Hx.
    + simpl. destruct (ascii_dec x c); [|discriminate]. by apply IH.
Qed.

Lemma Contains_after_new (x : string) (v : string) :
  hasByte p0 v = false -> Contains x pat = false -> Contains (v +:+ x) pat = false.
Proof.
  intros Hv Hx. induction v as [|c v IH]; [by rewrite app_empty|].
  simpl in Hv. apply orb_false_elim in Hv as [Hc Hv].
  rewrite app_cons. cbn [Contains]. rewrite (IH Hv), orb_false_r.
  subst pat. unfold HasPrefix. simpl.
  destruct (ascii_dec p0 c) as [->|]; [|reflexivity].
  by rewrite Ascii.eqb_refl in Hc.
Qed.

(** When every place of the source where [pat] starts is a place where
    [old] starts, [pat] does not occur in the result. *)
Lemma ReplaceFrom_complete (s : string) (skip : nat) :
  (forall a t, s = a +:+ t -> HasPrefix t old = true \/ HasPrefix t pat = false) ->
  Contains (ReplaceFrom skip s old new) pat = false.
Proof.
  revert skip. induction s as [|c s IH]; intros skip Hs.
  - by destruct skip.
  - assert (Htail : forall a t, s = a +:+ t ->
                      HasPrefix t old = true \/ HasPrefix t pat = false).
    { intros a t ->. apply (Hs (String c a)). by rewrite app_cons. }
    destruct skip as [|k]; [|simpl; by apply IH].
    rewrite ReplaceFrom_unfold.
    destruct (HasPrefix (String c s) old) eqn:Hold.
    + apply Contains_after_new; [exact Hp0|by apply IH].
    + cbn [Contains]. rewrite (IH 0 Htail), orb_false_r.
      destruct (Hs "" (String c s) eq_refl) as [Hcontra|Hpat]; [congruence|].
      destruct (HasPrefix (String c (ReplaceFrom 0 s old new)) pat) eqn:Hout;
        [|reflexivity].
      assert (Hsrc : String.prefix pat (String c s) = true).
      { apply prefix_of_result; [exact Hn0|].
        by rewrite ReplaceFrom_unfold, Hold. }
      unfold HasPrefix in Hpat. congruence.
Qed.

End ReplaceComplete.

Lemma Contains_false_suffix (s p a t : string) :
  Contains s p = false -> s = a +:+ t -> HasPrefix t p = false.
Proof.
  revert s. induction a as [|c a IH]; intros s Hs ->.
  - rewrite app_empty in Hs. destruct t; [exact Hs|].
    by apply Contains_false_cons in Hs as [? _].
  - rewrite app_cons in Hs. apply Contains_false_cons in Hs as [_ Hs].
    by apply (IH _ Hs).
Qed.

Lemma disjoint_first (n0 : ascii) (v' ph : string) :
  disjointBytes (String n0 v') ph -> hasByte n0 ph = false.
Proof. intros H. apply H. simpl. by rewrite Ascii.eqb_refl. Qed.

Lemma disjoint_absent (c : ascii) (v ph : string) :
  disjointBytes v ph -> hasByte c ph = true -> hasByte c v = false.
Proof.
  intros H Hc. destruct (hasByte c v) eqn:Hv; [|reflexivity].
  rewrite (H c Hv) in Hc. discriminate.
Qed.

(** Replacing a placeholder by a value that shares no byte with it leaves
    no occurrence of that placeholder. *)
Lemma Replace_removes (s : string) (p0 : ascii) (pat' v : string) :
  v <> "" -> disjointBytes v (String p0 pat') ->
  Contains (Replace s (String p0 pat') v) (String p0 pat') = false.
Proof.
  intros Hv Hdis. destruct v as [|n0 v']; [congruence|].
  apply ReplaceFrom_complete.
  - by apply (disjoint_first n0 v').
  - apply (disjoint_absent p0 _ _ Hdis). simpl. by rewrite Ascii.eqb_refl.
  - intros a t _. destruct (HasPrefix t (String p0 pat')); auto.
Qed.

(** Replacing one placeholder by such a value does not bring in another
    placeholder that was absent. *)
Lemma Replace_brings_none (s old : string) (p0 : ascii) (pat' v : string) :
  v <> "" -> disjointBytes v (String p0 pat') ->
  Contains s (String p0 pat') = false ->
  Contains (Replace s old v) (String p0 pat') = false.
Proof.
  intros Hv Hdis Hs. destruct v as [|n0 v']; [congruence|].
  apply ReplaceFrom_complete.
  - by apply (disjoint_first n0 v').
  - apply (disjoint_absent p0 _ _ Hdis). simpl. by rewrite Ascii.eqb_refl.
  - intros a t Heq. right. by apply (Contains_false_suffix s _ a t).
Qed.

(** ** Substitution with resolved coordinates is complete *)

Ltac solve_disjoint :=
  let c := fresh "c" in
  let Hc := fresh "Hc" in
  intros c Hc; cbn [hasByte] in Hc;
  repeat (apply orb_prop in Hc as [Hc|Hc];
          [apply Ascii.eqb_eq in Hc; subst c; reflexivity|]);
  discriminate.

Ltac solve_placeholderFree :=
  split; [discriminate|]; split; [solve_disjoint|]; split; solve_disjoint.

Lemma substituteIP_complete (text ip : string) :
  placeholderFree ip ->
  Contains (substituteIP text ip) "${auto:host}" = false
  /\ Contains (substituteIP text ip) "${auto:ip}" = false.
Proof.
  intros (Hne & Hhost & Hip & _). unfold substituteIP.
  apply String.eqb_neq in Hne as Hne'. rewrite Hne'. simpl. split.
  - apply Replace_brings_none; [assumption..|]. by apply Replace_removes.
  - by apply Replace_removes.
Qed.

Lemma substituteIP_brings_no_port (text ip : string) :
  placeholderFree ip ->
  Contains text "${auto:port}" = false ->
  Contains (substituteIP text ip) "${auto:port}" = false.
Proof.
  intros (Hne & _ & _ & Hport) Htext. unfold substituteIP.
  destruct (negb (String.eqb ip "")); [|assumption].
  apply Replace_brings_none; [assumption..|]. by apply Replace_brings_none.
Qed.

Lemma known_address_skips_fallbacks (W : World) (ip : string) (pid : Z) (id : string) :
  ip <> "" -> execHostnameFallback W (lowLevelIpv4Fetch W ip pid) id = ip.
Proof. intros Hip. by apply (fallbacks_keep_or_validate_holds W ip pid id). Qed.

Lemma substitution_is_complete_holds
    (W : World) (dc : DiscoveryConfigs) (key : string) (c : Container)
    (insp : ContainerJSON) (template ip port : string) :
  selectCoordinates W dc key c = (ip, port) ->
  placeholderFree ip -> placeholderFree port ->
  exists text,
    substitute W dc key c insp template = Ok (text, ip, port)
    /\ hasPlaceholder text = false.
Proof.
  intros Hsel Hip Hport. unfold substitute. rewrite Hsel.
  rewrite known_address_skips_fallbacks by apply Hip.
  unfold substitutePort. destruct Hport as (Hne & Hh & Hi & Hp).
  apply String.eqb_neq in Hne as Hne'. rewrite Hne'. simpl.
  eexists. split; [reflexivity|]. unfold hasPlaceholder.
  destruct (substituteIP_complete template ip Hip) as [H1 H2].
  rewrite (Replace_brings_none _ _ _ _ _ Hne Hh H1).
  rewrite (Replace_brings_none _ _ _ _ _ Hne Hi H2).
  by rewrite (Replace_removes _ _ _ _ Hne Hp).
Qed.

(** When the mode switch gives an address and a port that are not empty and
    share no byte with the placeholders, the substitution returns without
    consulting a fallback and its text holds no placeholder. *)
Theorem substitution_is_complete
    (W : World) (dc : DiscoveryConfigs) (key : string) (c : Container)
    (insp : ContainerJSON) (template ip port : string) :
  selectCoordinates W dc key c = (ip, port) ->
  placeholderFree ip -> placeholderFree port ->
  exists text,
    substitute W dc key c insp template = Ok (text, ip, port)
    /\ hasPlaceholder text = false.
Proof. apply substitution_is_complete_holds. Qed.

Lemma substitution_is_complete_witness :
  exists text,
    substitute bareWorld redisDirective "flexDiscoveryRedis" mappedContainer redisInspect
      "url: ${auto:host}:${auto:port}" = Ok (text, "172.17.0.5", "6379")
    /\ hasPlaceholder text = false.
Proof.
  apply (substitution_is_complete bareWorld redisDirective "flexDiscoveryRedis"
           mappedContainer redisInspect "url: ${auto:host}:${auto:port}"
           "172.17.0.5" "6379").
  - vm_compute. reflexivity.
  - solve_placeholderFree.
  - solve_placeholderFree.
Defined.

(** A template without [${auto:port}] needs no port: with a resolved
    address and no port from any source, its text holds no placeholder. *)
Theorem address_only_template_needs_no_port
    (W : World) (dc : DiscoveryConfigs) (key : string) (c : Container)
    (insp : ContainerJSON) (template ip : string) :
  selectCoordinates W dc key c = (ip, "") ->
  placeholderFree ip ->
  noKubePort W (Labels c) -> noExposedPort insp ->
  Contains template "${auto:port}" = false ->
  substitute W dc key c insp template = Ok (substituteIP template ip, ip, "")
  /\ hasPlaceholder (substituteIP template ip) = false.
Proof.
  intros Hsel Hip Hkube Hexp Htpl. unfold substitute. rewrite Hsel.
  rewrite known_address_skips_fallbacks by apply Hip.
  rewrite (substitutePort_none W c insp _ Hkube Hexp). simpl.
  split; [reflexivity|]. unfold hasPlaceholder.
  destruct (substituteIP_complete template ip Hip) as [-> ->].
  by rewrite (substituteIP_brings_no_port _ _ Hip Htpl).
Qed.

Lemma address_only_template_witness :
  substitute bareWorld redisDirective "flexDiscoveryRedis" redisContainer plainInspect
    "host: ${auto:host}"
  = Ok (substituteIP "host: ${auto:host}" "172.17.0.5", "172.17.0.5", "")
  /\ hasPlaceholder (substituteIP "host: ${auto:host}" "172.17.0.5") = false.
Proof.
  apply (address_only_template_needs_no_port bareWorld redisDirective "flexDiscoveryRedis"
           redisContainer plainInspect "host: ${auto:host}" "172.17.0.5").
  - vm_compute. reflexivity.
  - solve_placeholderFree.
  - intros val x [].
  - reflexivity.
  - reflexivity.
Defined.



(** ** The attributes of a decorated configuration *)

Lemma copyLabels_app (l1 l2 : list (string * string)) (m : gmap string string) :
  copyLabels (l1 ++ l2) m = copyLabels l2 (copyLabels l1 m).
Proof. unfold copyLabels. apply fold_left_app. Qed.

Lemma copyLabels_absent (labels : list (string * string)) (m : gmap string string)
    (k : string) :
  (forall v, ~ In (k, v) labels) -> copyLabels labels m !! k = m !! k.
Proof.
  revert m. induction labels as [|[k' v'] labels IH]; intros m Hno; [reflexivity|].
  change (copyLabels ((k', v') :: labels) m) with (copyLabels labels (<[k' := v']> m)).
  rewrite IH by (intros v Hin; apply (Hno v); by right).
  apply lookup_insert_ne. intros ->. apply (Hno v'). by left.
Qed.

Lemma copyLabels_last (l1 l2 : list (string * string)) (m : gmap string string)
    (k v : string) :
  (forall v', ~ In (k, v') l2) -> copyLabels (l1 ++ (k, v) :: l2) m !! k = Some v.
Proof.
  intros Hno. rewrite copyLabels_app.
  change (copyLabels ((k, v) :: l2) (copyLabels l1 m))
    with (copyLabels l2 (<[k := v]> (copyLabels l1 m))).
  rewrite (copyLabels_absent _ _ _ Hno). apply lookup_insert_eq.
Qed.

Lemma decorate_attributes_holds (yml y : load_Config) (c : Container) :
  decorate yml c = Ok y ->
  12 <= String.length (ID c)
  /\ FileName y = FileName yml
  /\ exists attrs,
       CustomAttributes y = Some attrs
       /\ attrs !! "containerID" = Some (ID c)
       /\ attrs !! "image" = Some (Image c)
       /\ attrs !! "IDShort" = Some (String.substring 0 12 (ID c))
       /\ forall k,
            k <> "containerID" -> k <> "image" -> k <> "IDShort" ->
            (forall l1 v l2,
               Labels c = l1 ++ (k, v) :: l2 -> (forall v', ~ In (k, v') l2) ->
               attrs !! k = Some v)
            /\ ((forall v, ~ In (k, v) (Labels c)) ->
                attrs !! k = match CustomAttributes yml with
                             | Some m => m !! k
                             | None => None
                             end).
Proof.
  unfold decorate. destruct (String.length (ID c) <? 12)%nat eqn:Hlen; [discriminate|].
  intros [= <-]. apply Nat.ltb_ge in Hlen. split; [exact Hlen|]. split; [reflexivity|].
  eexists. split; [reflexivity|].
  split; [by rewrite lookup_insert_ne, lookup_insert_ne, lookup_insert_eq|].
  split; [by rewrite lookup_insert_ne, lookup_insert_eq|].
  split; [by rewrite lookup_insert_eq|].
  intros k H1 H2 H3. rewrite !lookup_insert_ne by congruence. split.
  - intros l1 v l2 -> Hno. by apply copyLabels_last.
  - intros Hno. rewrite (copyLabels_absent _ _ _ Hno).
    by destruct (CustomAttributes yml).
Qed.

(** A decorated configuration keeps its file name and has an attribute
    map in which [containerID], [image] and [IDShort] are those of the
    target container whatever the labels say; under any other key it holds
    the container's label (the last one written) and, without such a label,
    the attribute of the parsed configuration. *)
Theorem decorate_attributes (yml y : load_Config) (c : Container) :
  decorate yml c = Ok y ->
  12 <= String.length (ID c)
  /\ FileName y = FileName yml
  /\ exists attrs,
       CustomAttributes y = Some attrs
       /\ attrs !! "containerID" = Some (ID c)
       /\ attrs !! "image" = Some (Image c)
       /\ attrs !! "IDShort" = Some (String.substring 0 12 (ID c))
       /\ forall k,
            k <> "containerID" -> k <> "image" -> k <> "IDShort" ->
            (forall l1 v l2,
               Labels c = l1 ++ (k, v) :: l2 -> (forall v', ~ In (k, v') l2) ->
               attrs !! k = Some v)
            /\ ((forall v, ~ In (k, v) (Labels c)) ->
                attrs !! k = match CustomAttributes yml with
                             | Some m => m !! k
                             | None => None
                             end).
Proof. apply decorate_attributes_holds. Qed.

Lemma decorate_attributes_witness :
  12 <= String.length (ID mappedContainer)
  /\ exists y attrs,
       decorate redisTemplate mappedContainer = Ok y
       /\ CustomAttributes y = Some attrs
       /\ attrs !! "containerID" = Some (ID mappedContainer)
       /\ attrs !! "IDShort" = Some "4f2a9c1d7e8b".
Proof.
  assert (Hrun : exists y, decorate redisTemplate mappedContainer = Ok y)
    by (eexists; reflexivity).
  destruct Hrun as [y Hy].
  destruct (decorate_attributes redisTemplate y mappedContainer Hy)
    as (Hlen & _ & attrs & Ha & Hid & _ & Hshort & _).
  split; [exact Hlen|]. exists y, attrs. auto.
Defined.

(** ** addDynamicConfig: what it skips and what it appends *)

(** When no template carries the directive's configuration name, or the
    file of each one that does cannot be read, the call returns with the
    output collection as it was. *)
Theorem missing_template_appends_nothing
    (W : World) (containerYmls : list load_Config) (dc : DiscoveryConfigs)
    (ymls : list load_Config) (c : Container) (insp : ContainerJSON) (key path : string) :
  (forall containerYml,
     In containerYml containerYmls ->
     FileName containerYml <> configNameOf dc key
     \/ ioutil_ReadFile W (path +:+ FileName containerYml) = None) ->
  addDynamicConfig W containerYmls dc ymls c insp key path = Ok ymls.
Proof.
  induction containerYmls as [|t rest IH]; intros Hskip; simpl; [reflexivity|].
  assert (Hone : addDynamicConfigFor W t dc ymls c insp key path = Ok ymls).
  { unfold addDynamicConfigFor.
    destruct (Hskip t (or_introl eq_refl)) as [Hname|Hread].
    - apply String.eqb_neq in Hname. by rewrite Hname.
    - rewrite Hread. by destruct (String.eqb _ _). }
  rewrite Hone. simpl. apply IH. intros x Hx. apply Hskip. by right.
Qed.

Lemma missing_template_witness :
  addDynamicConfig bareWorld [redisTemplate] redisDirective [] redisContainer plainInspect
    "flexDiscoveryRedis" "/etc/flex/" = Ok [].
Proof.
  apply (missing_template_appends_nothing bareWorld [redisTemplate] redisDirective []
           redisContainer plainInspect "flexDiscoveryRedis" "/etc/flex/").
  intros t _. right. reflexivity.
Defined.

Lemma addDynamicConfig_length (W : World) (containerYmls : list load_Config)
    (dc : DiscoveryConfigs) (c : Container) (insp : ContainerJSON) (key path : string)
    (ymls ymls' : list load_Config) :
  addDynamicConfig W containerYmls dc ymls c insp key path = Ok ymls' ->
  length ymls' <= length ymls + length containerYmls.
Proof.
  revert ymls. induction containerYmls as [|t rest IH]; intros ymls; simpl.
  - intros [= <-]. lia.
  - destruct (addDynamicConfigFor W t dc ymls c insp key path) as [ymls1|] eqn:Hone;
      [simpl|discriminate].
    intros Hrest%IH.
    destruct (addDynamicConfigFor_emits _ _ _ _ _ _ _ _ _ Hone) as [->|(y & -> & _)].
    + lia.
    + rewrite length_app in Hrest. simpl in Hrest. lia.
Qed.

(** A call that returns keeps the configurations it was given, in their
    order, and appends at most one per template; each appended
    configuration carries the id, the image and the 12-byte short id of the
    target container. *)
Theorem appended_configurations_describe_the_target
    (W : World) (containerYmls : list load_Config) (dc : DiscoveryConfigs)
    (ymls ymls' : list load_Config) (c : Container) (insp : ContainerJSON)
    (key path : string) :
  addDynamicConfig W containerYmls dc ymls c insp key path = Ok ymls' ->
  exists added,
    ymls' = ymls ++ added
    /\ length added <= length containerYmls
    /\ Forall (fun y => exists attrs,
                 CustomAttributes y = Some attrs
                 /\ attrs !! "containerID" = Some (ID c)
                 /\ attrs !! "image" = Some (Image c)
                 /\ attrs !! "IDShort" = Some (String.substring 0 12 (ID c))) added.
Proof.
  intros Hrun. destruct (addDynamicConfig_emits _ _ _ _ _ _ _ _ _ Hrun) as (added & -> & Hall).
  exists added. split; [reflexivity|]. split.
  - apply addDynamicConfig_length in Hrun. rewrite length_app in Hrun. lia.
  - eapply Forall_impl; [exact Hall|]. intros y (t & template & text & ip & port & yml & H).
    destruct H as (_ & _ & _ & _ & _ & _ & _ & Hdec).
    destruct (decorate_attributes_holds _ _ _ Hdec) as (_ & _ & attrs & Ha & H1 & H2 & H3 & _).
    exists attrs. auto.
Qed.

Lemma appended_configurations_witness :
  exists ymls' added,
    addDynamicConfig emptyPortWorld [redisTemplate] redisDirective [] mappedContainer
      redisInspect "flexDiscoveryRedis" "/etc/flex/" = Ok ymls'
    /\ ymls' = [] ++ added
    /\ length added <= length [redisTemplate].
Proof.
  assert (Hrun : exists ymls',
             addDynamicConfig emptyPortWorld [redisTemplate] redisDirective []
               mappedContainer redisInspect "flexDiscoveryRedis" "/etc/flex/" = Ok ymls')
    by (eexists; vm_compute; reflexivity).
  destruct Hrun as [ymls' Hrun].
  destruct (appended_configurations_describe_the_target _ _ _ _ _ _ _ _ _ Hrun)
    as (added & Hadd & Hlen & _).
  exists ymls', added. auto.
Defined.

(** When the parser rejects every text, a call that returns has appended
    nothing. *)
Theorem rejected_text_appends_nothing
    (W : World) (containerYmls : list load_Config) (dc : DiscoveryConfigs)
    (ymls ymls' : list load_Config) (c : Container) (insp : ContainerJSON)
    (key path : string) :
  (forall text, processor_ReadYML W text = None) ->
  addDynamicConfig W containerYmls dc ymls c insp key path = Ok ymls' ->
  ymls' = ymls.
Proof.
  intros Hreject Hrun.
  destruct (addDynamicConfig_emits _ _ _ _ _ _ _ _ _ Hrun) as (added & -> & Hall).
  destruct added as [|y added]; [by rewrite app_nil_r|].
  apply Forall_cons in Hall as [(t & template & text & ip & port & yml & H) _].
  destruct H as (_ & _ & _ & _ & _ & _ & Hyml & _). rewrite Hreject in Hyml. discriminate.
Qed.

Lemma rejected_text_witness :
  exists ymls',
    addDynamicConfig (sampleWorldRejecting hostFiles) [redisTemplate] redisDirective
      [redisTemplate] redisContainer plainInspect "flexDiscoveryRedis" "/etc/flex/"
    = Ok ymls'
    /\ ymls' = [redisTemplate].
Proof.
  assert (Hrun : exists ymls',
             addDynamicConfig (sampleWorldRejecting hostFiles) [redisTemplate]
               redisDirective [redisTemplate] redisContainer plainInspect
               "flexDiscoveryRedis" "/etc/flex/" = Ok ymls')
    by (eexists; vm_compute; reflexivity).
  destruct Hrun as [ymls' Hrun]. exists ymls'. split; [exact Hrun|].
  apply (rejected_text_appends_nothing (sampleWorldRejecting hostFiles) [redisTemplate]
           redisDirective [redisTemplate] ymls' redisContainer plainInspect
           "flexDiscoveryRedis" "/etc/flex/"); [reflexivity|exact Hrun].
Defined.

(** ** The self id is the first candidate's *)

Lemma fold_assign {A : Type} (P : A -> bool) (v : string) (l : list A) (init : string) :
  fold_left (fun id x => if P x then v else id) l init
  = if existsb P l then v else init.
Proof.
  revert init. induction l as [|a l IH]; intros init; simpl; [reflexivity|].
  rewrite IH. destruct (P a); simpl; [|reflexivity]. by destruct (existsb P l).
Qed.

Lemma fold_left_same {A B : Type} (f g : B -> A -> B) (l : list A) (init : B) :
  (forall b a, f b a = g b a) -> fold_left f l init = fold_left g l init.
Proof.
  intros Hfg. revert init. induction l as [|a l IH]; intros init; simpl; [reflexivity|].
  by rewrite Hfg, IH.
Qed.

Lemma flexContainerStep_unknown (W : World) (container : Container) :
  flexContainerStep W "" container
  = if flexCandidate W container then ID container else "".
Proof.
  destruct (flexCandidate W container) eqn:Hcand;
    [|by apply flexContainerStep_miss].
  unfold flexCandidate in Hcand. unfold flexContainerStep. cbv zeta.
  rewrite (fold_assign (fun containerName =>
             Contains (TrimPrefix containerName "/") (load_IntegrationNameShort W))).
  assert (Hlabels : forall init,
            fold_left (fun id (kv : string * string) =>
                         if String.eqb kv.1 "io.kubernetes.container.name"
                         then if Contains kv.2 (load_IntegrationNameShort W)
                              then ID container else id
                         else id) (Labels container) init
            = if existsb (fun kv => String.eqb kv.1 "io.kubernetes.container.name"
                                    && Contains kv.2 (load_IntegrationNameShort W))
                         (Labels container)
              then ID container else init).
  { intros init. rewrite <- (fold_assign _ (ID container)).
    apply fold_left_same. intros id [k v]. simpl.
    by destruct (String.eqb k _), (Contains v _). }
  rewrite Hlabels.
  destruct (Contains (Image container) (load_IntegrationName W)); simpl in *.
  - destruct (String.eqb (ID container) "") eqn:Hid; simpl; rewrite ?Hid.
    + apply String.eqb_eq in Hid. rewrite Hid. simpl.
      by repeat match goal with |- context [if ?b then _ else _] => destruct b end.
    + reflexivity.
  - destruct (existsb _ (Names container)); simpl in *.
    + destruct (String.eqb (ID container) "") eqn:Hid; [|reflexivity].
      apply String.eqb_eq in Hid. rewrite Hid.
      by destruct (existsb _ (Labels container)).
    + by rewrite Hcand.
Qed.

Lemma self_id_is_first_candidate_holds
    (W : World) (containerID : string) (containers : list Container) :
  findFlexContainerID W containerID containers
  = if String.eqb containerID "" then firstCandidateID W containers else containerID.
Proof.
  unfold findFlexContainerID. destruct (String.eqb containerID "") eqn:Hid; [|reflexivity].
  apply String.eqb_eq in Hid as ->.
  induction containers as [|c containers IH]; simpl; [reflexivity|].
  rewrite flexContainerStep_unknown.
  destruct (flexCandidate W c); simpl; [|exact IH].
  destruct (String.eqb (ID c) "") eqn:Hc; simpl.
  - apply String.eqb_eq in Hc. rewrite Hc. exact IH.
  - apply String.eqb_neq in Hc. by apply fold_flex_known.
Qed.


(** ** The forward lookup *)

Lemma forEach_preserves {A S : Type} (R : S -> S -> Prop) (body : S -> A -> result S)
    (l : list A) :
  (forall s, R s s) ->
  (forall a b c, R a b -> R b c -> R a c) ->
  (forall st a st', In a l -> body st a = Ok st' -> R st st') ->
  forall st st', forEach body l st = Ok st' -> R st st'.
Proof.
  intros Hrefl Htrans. induction l as [|a l IH]; intros Hbody st st'; simpl.
  - intros [= <-]. apply Hrefl.
  - destruct (body st a) as [st1|] eqn:Hone; [simpl|discriminate]. intros Hrest.
    apply (Htrans _ st1).
    + apply (Hbody st a); [by left|assumption].
    + apply IH; [|assumption]. intros s b s' Hb. apply Hbody. by right.
Qed.

Lemma onlyAppendsConfigs_refl (st : Pass) : onlyAppendsConfigs st st.
Proof. repeat split. exists []. by rewrite app_nil_r. Qed.

Lemma onlyAppendsConfigs_trans (a b c : Pass) :
  onlyAppendsConfigs a b -> onlyAppendsConfigs b c -> onlyAppendsConfigs a c.
Proof.
  intros (F1 & I1 & C1 & y1 & Y1) (F2 & I2 & C2 & y2 & Y2).
  repeat split; try congruence. exists (y1 ++ y2). by rewrite Y2, Y1, <- app_assoc.
Qed.

Lemma forwardEntry_onlyAppends (W : World) (containerYmls : list load_Config)
    (path : string) (container : Container) (containerInspect : ContainerJSON)
    (st st' : Pass) (kv : string * string) :
  forwardEntry W containerYmls path container containerInspect st kv = Ok st' ->
  onlyAppendsConfigs st st'.
Proof.
  unfold forwardEntry. destruct kv as [key val].
  destruct (Contains key "flexDiscovery");
    [|intros [= <-]; apply onlyAppendsConfigs_refl].
  destruct (parseFlexDiscoveryLabel _ key val) as [dc1|]; [simpl|discriminate].
  destruct (dcGet dc1 key "t") as [t|];
    [|intros [= <-]; repeat split; exists []; simpl; by rewrite app_nil_r].
  destruct (setDefault dc1 key "c" t) as [dcC|]; [simpl|discriminate].
  destruct (setDefault dcC key "r" "false") as [dcR|]; [simpl|discriminate].
  destruct (setDefault dcR key "tt" (load_Img W)) as [dcT|]; [simpl|discriminate].
  destruct (setDefault dcT key "tm" "contains") as [dc2|]; [simpl|discriminate].
  destruct (addDynamicConfig W containerYmls dc2 (ymls st) container containerInspect
              key path) as [ymls'|] eqn:Hadd; [simpl|discriminate].
  intros [= <-]. repeat split. simpl.
  destruct (addDynamicConfig_emits _ _ _ _ _ _ _ _ _ Hadd) as (added & -> & _).
  by exists added.
Qed.

(** What one unit of work of the forward lookup does to the pass: the Claim
    Set stays, configurations are only appended, and the runtime is asked
    for an inspection at most once, and then only for a container that is
    not the agent, is not claimed and has no inspection with a config in
    the cache. *)
Lemma forwardContainer_step (W : World) (cli : Client) (containerYmls : list load_Config)
    (path containerID : string) (st st' : Pass) (container : Container) :
  forwardContainer W cli containerYmls path containerID st container = Ok st' ->
  foundTargetContainerIds st' = foundTargetContainerIds st
  /\ (exists added, ymls st' = ymls st ++ added)
  /\ (inspectCalls st' = inspectCalls st
      \/ (inspectCalls st' = inspectCalls st ++ [ID container]
          /\ ID container <> containerID
          /\ ~ In (ID container) (foundTargetContainerIds st)
          /\ Config (cachedInspect (inspectedContainers st) (ID container)) = None)).
Proof.
  unfold forwardContainer.
  destruct (String.eqb containerID (ID container)) eqn:Hself; simpl.
  { intros [= <-]. repeat split; [by exists []; rewrite app_nil_r|by left]. }
  destruct (existsb _ (foundTargetContainerIds st)) eqn:Hclaimed; simpl.
  { intros [= <-]. repeat split; [by exists []; rewrite app_nil_r|by left]. }
  apply String.eqb_neq in Hself. apply existsb_unclaimed in Hclaimed.
  destruct (Config (cachedInspect (inspectedContainers st) (ID container)))
    as [cachedConfig|] eqn:Hcache.
  - rewrite Hcache. intros Hloop.
    apply (forEach_preserves onlyAppendsConfigs) in Hloop
      as (F & _ & C & Y);
      [|apply onlyAppendsConfigs_refl|apply onlyAppendsConfigs_trans
       |intros s a s' _; apply forwardEntry_onlyAppends].
    repeat split; [assumption..|by left].
  - unfold inspect. destruct (ContainerInspect cli (ID container)) as [fresh|].
    + destruct (Config fresh) as [config|].
      * intros Hloop.
        apply (forEach_preserves onlyAppendsConfigs) in Hloop
          as (F & _ & C & Y);
          [|apply onlyAppendsConfigs_refl|apply onlyAppendsConfigs_trans
           |intros s a s' _; apply forwardEntry_onlyAppends].
        simpl in *. repeat split; [assumption..|]. right. repeat split; auto.
      * intros [= <-]. simpl. repeat split; [by exists []; rewrite app_nil_r|].
        right. repeat split; auto.
    + simpl. intros [= <-]. simpl. repeat split; [by exists []; rewrite app_nil_r|].
      right. repeat split; auto.
Qed.

Lemma forward_lookup_inspects_each_container_at_most_once_holds
    (W : World) (cli : Client) (containers : list Container)
    (containerYmls : list load_Config) (path containerID : string) (st st' : Pass) :
  runForwardLookup W cli containers containerYmls path containerID st = Ok st' ->
  foundTargetContainerIds st' = foundTargetContainerIds st
  /\ (exists added, ymls st' = ymls st ++ added)
  /\ exists calls,
       inspectCalls st' = inspectCalls st ++ calls
       /\ sublist calls (map ID containers)
       /\ ~ In containerID calls.
Proof.
  unfold runForwardLookup.
  change (foundTargetContainerIds st) with (foundTargetContainerIds (setConfigs ∅ st)).
  change (ymls st) with (ymls (setConfigs ∅ st)).
  change (inspectCalls st) with (inspectCalls (setConfigs ∅ st)).
  generalize (setConfigs ∅ st). clear st.
  induction containers as [|c containers IH]; intros st; simpl.
  - intros [= <-]. repeat split; [by exists []; rewrite app_nil_r|].
    exists []. rewrite app_nil_r. repeat split; [constructor|intros []].
  - destruct (forwardContainer W cli containerYmls path containerID st c)
      as [st1|] eqn:Hone; [simpl|discriminate].
    intros (F & (y2 & Y) & calls & C & Hsub & Hnot)%IH.
    destruct (forwardContainer_step _ _ _ _ _ _ _ _ Hone) as (F1 & (y1 & Y1) & Hcalls).
    split; [congruence|]. split.
    { exists (y1 ++ y2). by rewrite Y, Y1, <- app_assoc. }
    destruct Hcalls as [C1|(C1 & Hself & _ & _)].
    + exists calls. repeat split; [congruence| |assumption].
      by apply sublist_cons.
    + exists (ID c :: calls). repeat split.
      * by rewrite C, C1, <- app_assoc.
      * by apply sublist_skip.
      * intros [Heq|Hin]; [congruence|contradiction].
Qed.



Lemma cachedInspect_hit (inspected : list ContainerJSON) (id : string) :
  (exists cached, In cached inspected /\ JSON_ID cached = id) ->
  (forall cached, In cached inspected -> JSON_ID cached = id -> is_Some (Config cached)) ->
  is_Some (Config (cachedInspect inspected id)).
Proof.
  induction inspected as [|i inspected IH]; simpl.
  - intros (cached & [] & _).
  - intros (cached & Hin & Hid) Hall.
    destruct (String.eqb (JSON_ID i) id) eqn:Hi.
    + apply String.eqb_eq in Hi. apply Hall; [by left|assumption].
    + apply String.eqb_neq in Hi. apply IH.
      * destruct Hin as [->|Hin]; [contradiction|]. by exists cached.
      * intros x Hx. apply Hall. by right.
Qed.

(** A container whose inspection is in the cache with its config is not
    inspected again by the forward lookup. *)
Theorem forward_lookup_reuses_cached_inspection
    (W : World) (cli : Client) (containerYmls : list load_Config)
    (path containerID : string) (st st' : Pass) (container : Container) :
  (exists cached, In cached (inspectedContainers st) /\ JSON_ID cached = ID container) ->
  (forall cached, In cached (inspectedContainers st) ->
                  JSON_ID cached = ID container -> is_Some (Config cached)) ->
  forwardContainer W cli containerYmls path containerID st container = Ok st' ->
  inspectCalls st' = inspectCalls st.
Proof.
  intros Hin Hall Hrun.
  destruct (cachedInspect_hit _ _ Hin Hall) as [config Hconfig].
  destruct (forwardContainer_step _ _ _ _ _ _ _ _ Hrun) as (_ & _ & [Hsame|Hcall]);
    [exact Hsame|].
  destruct Hcall as (_ & _ & _ & Hnone). congruence.
Qed.

Lemma forward_lookup_reuses_witness :
  exists st',
    forwardContainer (hostWorld None) oneDirectiveClient [redisTemplate] "/etc/flex/"
      (ID agentContainer) (addInspected redisInspect (initialPass [])) labelledRedis
    = Ok st'
    /\ inspectCalls st' = [].
Proof.
  assert (Hrun : exists st',
             forwardContainer (hostWorld None) oneDirectiveClient [redisTemplate]
               "/etc/flex/" (ID agentContainer)
               (addInspected redisInspect (initialPass [])) labelledRedis = Ok st')
    by (eexists; vm_compute; reflexivity).
  destruct Hrun as (st' & Hrun). exists st'. split; [exact Hrun|].
  apply (forward_lookup_reuses_cached_inspection (hostWorld None) oneDirectiveClient
           [redisTemplate] "/etc/flex/" (ID agentContainer)
           (addInspected redisInspect (initialPass [])) st' labelledRedis).
  - exists redisInspect. split; [by left|reflexivity].
  - intros cached [<-|[]] _. eexists. reflexivity.
  - exact Hrun.
Defined.

(** ** The reverse lookup *)

Lemma claimsOnly_refl (P : string -> Prop) (st : Pass) : claimsOnly P st st.
Proof.
  split; [|split].
  - exists []. by rewrite app_nil_r.
  - auto.
  - exists []. by rewrite app_nil_r.
Qed.

Lemma claimsOnly_trans (P : string -> Prop) (a b c : Pass) :
  claimsOnly P a b -> claimsOnly P b c -> claimsOnly P a c.
Proof.
  intros ((i1 & F1 & P1) & N1 & y1 & Y1) ((i2 & F2 & P2) & N2 & y2 & Y2).
  split; [|split].
  - exists (i1 ++ i2). split; [by rewrite F2, F1, <- app_assoc|by apply Forall_app].
  - auto.
  - exists (y1 ++ y2). by rewrite Y2, Y1, <- app_assoc.
Qed.

Lemma claimsOnly_weaken (P Q : string -> Prop) (st st' : Pass) :
  (forall id, P id -> Q id) -> claimsOnly P st st' -> claimsOnly Q st st'.
Proof.
  intros HPQ ((ids & F & HP) & N & Y). split; [|by split].
  exists ids. split; [assumption|]. eapply Forall_impl; [exact HP|exact HPQ].
Qed.

Lemma claimsOnly_same (P : string -> Prop) (st st' : Pass) :
  foundTargetContainerIds st' = foundTargetContainerIds st ->
  ymls st' = ymls st ->
  claimsOnly P st st'.
Proof.
  intros F Y. split; [|split].
  - exists []. by rewrite app_nil_r.
  - by rewrite F.
  - exists []. by rewrite app_nil_r.
Qed.

Lemma findContainerTarget_false (W : World) (dc : DiscoveryConfigs) (container : Container)
    (key : string) (ids ids' : list string) :
  findContainerTarget W dc container key ids = Ok (false, ids') -> ids' = ids.
Proof.
  unfold findContainerTarget.
  destruct (existsb _ ids); [congruence|].
  destruct (dcGet dc key "tt") as [targetType|]; [|congruence].
  destruct (String.eqb targetType "cname"); [apply namesLoop_false|].
  destruct (String.eqb targetType (load_Img W)); [|congruence].
  destruct (assertString (dcGet dc key "tm")) as [tm|]; [simpl|discriminate].
  destruct (assertString (dcGet dc key "t")) as [t|]; [simpl|discriminate].
  destruct (formatter_KvFinder W tm _ t); [discriminate|congruence].
Qed.

Lemma reverseEntry_claims (W : World) (cli : Client) (containerYmls : list load_Config)
    (path : string) (container : Container) (st st' : Pass) (kv : string * string) :
  reverseEntry W cli containerYmls path container st kv = Ok st' ->
  claimsOnly (fun id => id = ID container) st st'.
Proof.
  unfold reverseEntry. destruct kv as [key val].
  destruct (Contains key "flexDiscovery"); [|intros [= <-]; apply claimsOnly_refl].
  destruct (parseFlexDiscoveryLabel _ key val) as [dc1|]; [simpl|discriminate].
  match goal with |- context [mbind _ ?r] => destruct r as [dc2|] end;
    [simpl|discriminate].
  destruct (ContainerInspect cli (ID container)) as [insp|];
    [|intros [= <-]; by apply claimsOnly_same].
  destruct (findContainerTarget W dc2 container key (foundTargetContainerIds st))
    as [[[|] ids]|] eqn:Hmatch; [simpl| |discriminate].
  - destruct (addDynamicConfig W containerYmls dc2 (ymls st) container insp key path)
      as [ymls'|] eqn:Hadd; [simpl|discriminate].
    intros [= <-].
    destruct (match_claims_the_container_once_holds _ _ _ _ _ _ Hmatch) as (-> & Hnew & Hnd).
    destruct (addDynamicConfig_emits _ _ _ _ _ _ _ _ _ Hadd) as (added & -> & _).
    split; [|split]; simpl.
    + exists [ID container]. split; [reflexivity|]. by constructor.
    + exact Hnd.
    + by exists added.
  - simpl. intros [= <-]. apply findContainerTarget_false in Hmatch as ->.
    by apply claimsOnly_same.
Qed.

Lemma reverseContainer_claims (W : World) (cli : Client) (containerYmls : list load_Config)
    (path containerID : string) (discoveryLoop : list (string * string))
    (st st' : Pass) (container : Container) :
  reverseContainer W cli containerYmls path containerID discoveryLoop st container = Ok st' ->
  claimsOnly (fun id => id <> containerID /\ id = ID container) st st'.
Proof.
  unfold reverseContainer.
  destruct (String.eqb (ID container) containerID) eqn:Hself; simpl;
    [intros [= <-]; apply claimsOnly_refl|].
  apply String.eqb_neq in Hself. intros Hloop.
  apply (claimsOnly_weaken (fun id => id = ID container)); [by intros id ->|].
  revert Hloop. apply forEach_preserves;
    [apply claimsOnly_refl|apply claimsOnly_trans|].
  intros s kv s' _. apply reverseEntry_claims.
Qed.

Lemma runReverseLookup_claims (W : World) (cli : Client) (containers : list Container)
    (containerYmls : list load_Config) (path containerID : string) (st st' : Pass) :
  runReverseLookup W cli containers containerYmls path containerID st = Ok st' ->
  claimsOnly (fun id => id <> containerID /\ exists c, In c containers /\ ID c = id)
             st st'.
Proof.
  unfold runReverseLookup.
  set (P := fun id => id <> containerID /\ exists c, In c containers /\ ID c = id).
  assert (Hstart : forall discoveryLoop st1,
            foundTargetContainerIds st1 = foundTargetContainerIds st ->
            ymls st1 = ymls st ->
            (if (0 <? length discoveryLoop)%nat
             then forEach (reverseContainer W cli containerYmls path containerID
                             discoveryLoop) containers st1
             else Ok st1) = Ok st' ->
            claimsOnly P st st').
  { intros discoveryLoop st1 F Y Hrun.
    apply (claimsOnly_trans P _ st1); [by apply claimsOnly_same|].
    destruct (0 <? length discoveryLoop)%nat;
      [|injection Hrun as <-; apply claimsOnly_refl].
    revert Hrun. apply forEach_preserves;
      [apply claimsOnly_refl|apply claimsOnly_trans|].
    intros s c s' Hc Hone%reverseContainer_claims.
    eapply claimsOnly_weaken; [|exact Hone].
    intros id [Hne ->]. split; [assumption|]. by exists c. }
  destruct (negb (String.eqb containerID "")); [|by apply Hstart].
  unfold inspect. destruct (ContainerInspect cli containerID) as [insp|];
    [|by apply Hstart].
  destruct (Config insp); by apply Hstart.
Qed.

(** The reverse lookup only appends to the Claim Set and to the output
    collection; every id it claims is the id of an enumerated container
    other than the agent's own, and a Claim Set without repetition stays
    so. *)
Theorem reverse_lookup_claims_other_containers_once
    (W : World) (cli : Client) (containers : list Container)
    (containerYmls : list load_Config) (path containerID : string) (st st' : Pass) :
  runReverseLookup W cli containers containerYmls path containerID st = Ok st' ->
  claimsOnly (fun id => id <> containerID /\ exists c, In c containers /\ ID c = id)
             st st'.
Proof. apply runReverseLookup_claims. Qed.

Lemma reverse_lookup_claims_witness :
  exists st',
    runReverseLookup (hostWorld None) oneDirectiveClient [agentContainer; redisContainer]
      [redisTemplate] "/etc/flex/" (ID agentContainer) (initialPass []) = Ok st'
    /\ foundTargetContainerIds st' = [ID redisContainer]
    /\ claimsOnly (fun id => id <> ID agentContainer
                             /\ exists c, In c [agentContainer; redisContainer] /\ ID c = id)
                  (initialPass []) st'.
Proof.
  assert (Hrun : exists st',
             runReverseLookup (hostWorld None) oneDirectiveClient
               [agentContainer; redisContainer] [redisTemplate] "/etc/flex/"
               (ID agentContainer) (initialPass []) = Ok st'
             /\ foundTargetContainerIds st' = [ID redisContainer])
    by (eexists; split; vm_compute; reflexivity).
  destruct Hrun as (st' & Hrun & Hfound). exists st'.
  split; [exact Hrun|]. split; [exact Hfound|].
  apply (reverse_lookup_claims_other_containers_once (hostWorld None) oneDirectiveClient
           [agentContainer; redisContainer] [redisTemplate] "/etc/flex/"
           (ID agentContainer) (initialPass []) st' Hrun).
Defined.

(** When the agent's annotation map has no key with the discovery marker
    (the self id is unknown, its inspection fails or has no config, or it
    carries no directive), the reverse lookup returns without panic,
    claims nothing, appends nothing and inspects no container but the
    agent's own. *)
Theorem reverse_lookup_without_directive_does_nothing
    (W : World) (cli : Client) (containers : list Container)
    (containerYmls : list load_Config) (path containerID : string) (st : Pass) :
  (forall kv, In kv (agentAnnotations cli containerID) ->
              Contains kv.1 "flexDiscovery" = false) ->
  exists st',
    runReverseLookup W cli containers containerYmls path containerID st = Ok st'
    /\ foundTargetContainerIds st' = foundTargetContainerIds st
    /\ ymls st' = ymls st
    /\ inspectCalls st'
       = inspectCalls st ++ (if String.eqb containerID "" then [] else [containerID]).
Proof.
  intros Hnone. unfold runReverseLookup.
  assert (Hentries : forall discoveryLoop,
            (forall kv, In kv discoveryLoop -> Contains kv.1 "flexDiscovery" = false) ->
            forall c s,
              reverseContainer W cli containerYmls path containerID discoveryLoop s c
              = Ok s).
  { intros discoveryLoop Hloop c s. unfold reverseContainer.
    destruct (negb (String.eqb (ID c) containerID)); [|reflexivity].
    induction discoveryLoop as [|[k v] l IH]; simpl; [reflexivity|].
    assert (Hk : Contains k "flexDiscovery" = false) by (apply (Hloop (k, v)); by left).
    unfold reverseEntry at 1. rewrite Hk. simpl. apply IH.
    intros kv Hin. apply Hloop. by right. }
  assert (Hloop : forall discoveryLoop s,
            (forall kv, In kv discoveryLoop -> Contains kv.1 "flexDiscovery" = false) ->
            (if (0 <? length discoveryLoop)%nat
             then forEach (reverseContainer W cli containerYmls path containerID
                             discoveryLoop) containers s
             else Ok s) = Ok s).
  { intros discoveryLoop s Hl. destruct (0 <? length discoveryLoop)%nat; [|reflexivity].
    induction containers as [|c cs IH]; simpl; [reflexivity|].
    rewrite (Hentries discoveryLoop Hl). exact IH. }
  unfold agentAnnotations in Hnone.
  destruct (String.eqb containerID "") eqn:Hid; simpl.
  - eexists. split; [reflexivity|]. simpl. by rewrite app_nil_r.
  - unfold inspect. destruct (ContainerInspect cli containerID) as [insp|].
    + destruct (Config insp) as [config|].
      * rewrite (Hloop _ _ Hnone). eexists. split; [reflexivity|]. by simpl.
      * eexists. split; [reflexivity|]. by simpl.
    + eexists. split; [reflexivity|]. by simpl.
Qed.

Lemma reverse_lookup_without_directive_witness :
  exists st',
    runReverseLookup (hostWorld None) (sampleClient ["PATH=/usr/bin"] []) [redisContainer]
      [redisTemplate] "/etc/flex/" (ID agentContainer) (initialPass []) = Ok st'
    /\ foundTargetContainerIds st' = []
    /\ ymls st' = []
    /\ inspectCalls st' = [] ++ [ID agentContainer].
Proof.
  apply (reverse_lookup_without_directive_does_nothing (hostWorld None)
           (sampleClient ["PATH=/usr/bin"] []) [redisContainer] [redisTemplate]
           "/etc/flex/" (ID agentContainer) (initialPass [])).
  intros kv [<-|[]]. reflexivity.
Defined.

(** ** The pass as a whole: what it keeps *)

(** A pass that returns has kept the caller's configurations in their
    order and only appended to them; its Claim Set has no repetition and
    holds ids of enumerated containers other than the self container; and
    a self id that was known is returned as it was. *)
Theorem pass_appends_and_claims_each_container_once
    (W : World) (containers : list Container) (path : string)
    (ymls0 : list load_Config) (containerID containerID' : string) (st : Pass) :
  CreateDynamicContainerConfigs W containers path ymls0 containerID
  = Ok (containerID', st) ->
  (exists added, ymls st = ymls0 ++ added)
  /\ List.NoDup (foundTargetContainerIds st)
  /\ Forall (fun id => id <> containerID' /\ exists c, In c containers /\ ID c = id)
            (foundTargetContainerIds st)
  /\ (containerID <> "" -> containerID' = containerID).
Proof.
  unfold CreateDynamicContainerConfigs.
  assert (Hknown : containerID <> "" ->
                   findFlexContainerID W containerID containers = containerID).
  { intros Hne. rewrite self_id_is_first_candidate_holds.
    apply String.eqb_neq in Hne. by rewrite Hne. }
  destruct (setDockerClient W) as [cli|].
  - destruct (runReverseLookup W cli containers _ path _ (initialPass ymls0))
      as [st1|] eqn:Hrev; [simpl|discriminate].
    destruct (runForwardLookup W cli containers _ path _ st1)
      as [st2|] eqn:Hfwd; [simpl|discriminate].
    intros [= <- <-].
    apply runReverseLookup_claims in Hrev as ((ids & F1 & P1) & N1 & y1 & Y1).
    apply forward_lookup_inspects_each_container_at_most_once_holds in Hfwd
      as (F2 & (y2 & Y2) & _).
    simpl in *. repeat split.
    + exists (y1 ++ y2). by rewrite Y2, Y1, <- app_assoc.
    + rewrite F2. apply N1. constructor.
    + rewrite F2, F1. exact P1.
    + exact Hknown.
  - intros [= <- <-]. simpl. repeat split.
    + exists []. by rewrite app_nil_r.
    + constructor.
    + constructor.
Qed.

Lemma pass_appends_witness :
  exists st,
    CreateDynamicContainerConfigs (hostWorld (Some oneDirectiveClient))
      [agentContainer; redisContainer] "/etc/flex/" [redisTemplate] ""
    = Ok (ID agentContainer, st)
    /\ (exists added, ymls st = [redisTemplate] ++ added)
    /\ foundTargetContainerIds st = [ID redisContainer].
Proof.
  assert (Hrun : exists st,
             CreateDynamicContainerConfigs (hostWorld (Some oneDirectiveClient))
               [agentContainer; redisContainer] "/etc/flex/" [redisTemplate] ""
             = Ok (ID agentContainer, st)
             /\ foundTargetContainerIds st = [ID redisContainer])
    by (eexists; split; vm_compute; reflexivity).
  destruct Hrun as (st & Hrun & Hfound). exists st. split; [exact Hrun|].
  destruct (pass_appends_and_claims_each_container_once _ _ _ _ _ _ _ Hrun)
    as (Hymls & _).
  auto.
Defined.

(** ** Run and setDockerClient *)

(** [Run] changes its outputs only when the client is built and the
    listing succeeds with at least one container: then the flag is set and
    the containers are the listing. In every other case, an empty listing
    included, both outputs are left as they were. *)
Theorem Run_outputs (W : World) (available : bool) (containers : list Container) :
  (exists cli listing,
     setDockerClient W = Some cli /\ ContainerList cli = Some listing
     /\ listing <> [] /\ Run W available containers = (true, listing))
  \/ ((forall cli listing,
         setDockerClient W = Some cli -> ContainerList cli = Some listing ->
         listing = [])
      /\ Run W available containers = (available, containers)).
Proof.
  unfold Run. destruct (setDockerClient W) as [cli|]; [|right; split; [discriminate|reflexivity]].
  destruct (ContainerList cli) as [[|c listing]|] eqn:Hlist.
  - right. split; [|reflexivity]. intros cli' l [= <-]. congruence.
  - left. exists cli, (c :: listing). repeat split; [assumption|discriminate].
  - right. split; [|reflexivity]. intros cli' l [= <-]. congruence.
Qed.

(** [setDockerClient] never runs the version command: the test that guards
    it reads an error that no statement has set. With a pinned version the
    client is built with that version; without one it is built from the
    empty output, with the version that [TrimSpace] makes of the empty
    text when the comparison with the default version allows it and
    without option otherwise. *)
Theorem setDockerClient_never_probes (E : DockerClient.Env) :
  (DockerClient.setDockerClientRun E).1 = []
  /\ (DockerClient.load_Args_DockerAPIVersion E <> "" ->
      (DockerClient.setDockerClientRun E).2
      = DockerClient.WithVersion (DockerClient.load_Args_DockerAPIVersion E))
  /\ (DockerClient.load_Args_DockerAPIVersion E = "" ->
      (DockerClient.setDockerClientRun E).2
      = if DockerClient.version_le E (DockerClient.strings_TrimSpace E "")
             (DockerClient.api_DefaultVersion E)
        then DockerClient.WithVersion (DockerClient.strings_TrimSpace E "")
        else DockerClient.NoOpts).
Proof.
  unfold DockerClient.setDockerClientRun.
  destruct (String.eqb (DockerClient.load_Args_DockerAPIVersion E) "") eqn:Hv; simpl.
  - apply String.eqb_eq in Hv. split; [|split].
    + by destruct (DockerClient.version_le E _ _).
    + congruence.
    + intros _. change (Replace "" DockerClient.doubleQuote "") with "".
      by destruct (DockerClient.version_le E _ _).
  - apply String.eqb_neq in Hv. split; [reflexivity|]. split; [reflexivity|congruence].
Qed.

(** ** The port fallbacks *)

(** In the decoded ports label, the objects without [containerPort] are
    passed over and the first [containerPort] found is rendered and
    substituted; what follows it in the array is not looked at. An element
    that is not an object, met before any [containerPort], makes the loop
    panic. *)
Theorem first_containerPort_wins
    (W : World) (before : list jvalue) (st : string * string) :
  Forall (fun v => exists fields,
            v = JObject fields /\ objectField fields "containerPort" = None) before ->
  (forall fields v after,
     objectField fields "containerPort" = Some v ->
     kubePortsLoop W (before ++ JObject fields :: after) st
     = Ok (Replace st.1 "${auto:port}" (fmt_Sprintf_v W v), fmt_Sprintf_v W v))
  /\ (forall element after,
        (forall fields, element <> JObject fields) ->
        kubePortsLoop W (before ++ element :: after) st = Panic).
Proof.
  induction 1 as [|x before (fields0 & -> & Hnone) _ IH]; simpl.
  - split.
    + intros fields v after Hv. by rewrite Hv.
    + intros element after Hnot. destruct element; try reflexivity.
      by destruct (Hnot fields).
  - rewrite Hnone. exact IH.
Qed.

Lemma first_containerPort_witness :
  kubePortsLoop bareWorld
    ([JObject [("name", JString "metrics")]]
       ++ JObject [("containerPort", JNumber "6379")] :: [JNumber "1"])
    ("port: ${auto:port}", "")
  = Ok ("port: 6379", "6379").
Proof.
  assert (Hbefore : Forall (fun v => exists fields,
                              v = JObject fields
                              /\ objectField fields "containerPort" = None)
                           [JObject [("name", JString "metrics")]]).
  { constructor; [|constructor]. eexists. split; reflexivity. }
  apply (proj1 (first_containerPort_wins bareWorld
                  [JObject [("name", JString "metrics")]]
                  ("port: ${auto:port}", "") Hbefore)
               [("containerPort", JNumber "6379")] (JNumber "6379") [JNumber "1"]).
  reflexivity.
Defined.



